(** * qdarkstyle/utils/images.py: SVG templates to themed PNG resources

    A shallow embedding of [images.py] and the properties of its
    variant naming, colorization, reference extraction, reconciliation
    and manifest generation.

    Python values are modelled as follows.
    - [str] is [string]; the methods the module calls ([split],
      [replace], [endswith], [join], [format]) are written out in
      [Module Py].
    - [dict] is an insertion-ordered association list with unique keys.
    - exceptions are the constructors of [Py.exn]; a function that may
      raise returns [exn + A], a function that also touches files is a
      state-and-exception computation [M S A].
    - the file system is a finite map from paths to file contents, plus
      the log of raster files written through Qt. *)

From Stdlib Require Import ZArith Ascii String Lia Permutation.
From stdpp Require Import base list strings gmap sorting.

Local Open Scope Z_scope.

(** ** The Python primitives used by the module *)

Module Py.

Inductive exn : Type :=
| ValueError
| AssertionError
| UnboundLocalError
| FileNotFoundError.

#[global] Instance exn_eq_dec : EqDecision exn.
Proof. solve_decision. Defined.

(** *** [str] *)

(** [old in s] *)
Fixpoint contains (old s : string) : bool :=
  String.prefix old s ||
  match s with
  | EmptyString => false
  | String _ s' => contains old s'
  end.

(** [s.endswith(suffix)] *)
Fixpoint endswith (suffix s : string) : bool :=
  String.eqb s suffix ||
  match s with
  | EmptyString => false
  | String _ s' => endswith suffix s'
  end.

(** [s.count(c)] for a one-character [c] *)
Fixpoint count (c : ascii) (s : string) : nat :=
  match s with
  | EmptyString => O
  | String a s' => (if Ascii.eqb a c then 1 else 0)%nat + count c s'
  end.

(** [s.split(sep)] for a one-character separator: the pieces between
    the separators, empty pieces included; never the empty list. *)
Fixpoint split (sep : ascii) (s : string) : list string :=
  match s with
  | EmptyString => [EmptyString]
  | String c s' =>
      if Ascii.eqb c sep then EmptyString :: split sep s'
      else match split sep s' with
           | [] => [String c EmptyString]
           | w :: ws => String c w :: ws
           end
  end.

(** [sep.join(parts)] *)
Fixpoint join (sep : string) (parts : list string) : string :=
  match parts with
  | [] => EmptyString
  | [p] => p
  | p :: ps => p +:+ sep +:+ join sep ps
  end.

(** [s.replace(old, new)]: the non-overlapping occurrences of [old],
    taken from the left, are replaced by [new].  [skip] counts the
    characters of a matched occurrence that remain to be dropped. *)
Fixpoint replace_go (old new : string) (skip : nat) (s : string) : string :=
  match s with
  | EmptyString => EmptyString
  | String c s' =>
      match skip with
      | S k => replace_go old new k s'
      | O =>
          if String.prefix old s
          then new +:+ replace_go old new (String.length old - 1) s'
          else String c (replace_go old new 0 s')
      end
  end.

(** With an empty [old], Python inserts [new] before every character
    and at the end. *)
Fixpoint intersperse (new s : string) : string :=
  match s with
  | EmptyString => new
  | String c s' => new +:+ String c (intersperse new s')
  end.

Definition replace (old new s : string) : string :=
  match old with
  | EmptyString => intersperse new s
  | String _ _ => replace_go old new 0 s
  end.

(** [template.format(key=value)] for a template whose only braces are
    those of replacement fields named [key]: the value is inserted
    as it is and not scanned again. *)
Definition format (template key value : string) : string :=
  replace ("{" +:+ key +:+ "}") value template.

(** The first [n] characters of [s]: [s[:n]]. *)
Fixpoint take (n : nat) (s : string) : string :=
  match n, s with
  | S k, String c s' => String c (take k s')
  | _, _ => EmptyString
  end.

(** *** [dict] with [str] keys *)

Definition dict (V : Type) : Type := list (string * V).

(** [d[k] = v]: an existing key keeps its position. *)
Fixpoint dict_set {V} (k : string) (v : V) (d : dict V) : dict V :=
  match d with
  | [] => [(k, v)]
  | (k', v') :: d' =>
      if String.eqb k' k then (k', v) :: d'
      else (k', v') :: dict_set k v d'
  end.

(** [d.get(k)] *)
Fixpoint dict_get {V} (k : string) (d : dict V) : option V :=
  match d with
  | [] => None
  | (k', v') :: d' => if String.eqb k' k then Some v' else dict_get k d'
  end.

(** A dictionary display [{k1: v1, ..., kn: vn}]: the entries are
    stored from left to right. *)
Definition dict_display {V} (entries : list (string * V)) : dict V :=
  fold_left (fun d kv => dict_set (fst kv) (snd kv) d) entries [].

Definition keys {V} (d : dict V) : list string := map fst d.

(** *** [list] *)

(** [l.remove(x)]: drops the first occurrence, [ValueError] without one. *)
Fixpoint list_remove (x : string) (l : list string) : exn + list string :=
  match l with
  | [] => inl ValueError
  | y :: l' =>
      if String.eqb y x then inr l'
      else match list_remove x l' with
           | inr r => inr (y :: r)
           | inl e => inl e
           end
  end.

(** [list(set(l))]: the distinct elements, in an order the language
    leaves open. *)
Definition list_of_set (l : list string) : list string :=
  elements (list_to_set l : gset string).

(** [sorted(l)] on strings: ascending by code units. *)
Definition sorted (l : list string) : list string :=
  merge_sort String.le l.

(** *** [os.path] (POSIX) *)

(** [os.path.basename(p)]: what follows the last ['/']. *)
Definition basename (p : string) : string :=
  List.last (split "/" p) EmptyString.

(** [os.path.join(a, b)] *)
Definition path_join (a b : string) : string :=
  if String.prefix "/" b then b
  else if String.eqb a EmptyString || endswith "/" a then a +:+ b
  else a +:+ "/" +:+ b.

(** *** [re] *)

(** The compiled form of the patterns: literals, [.], concatenation,
    alternation and the greedy star. *)
Inductive regex : Type :=
| Chr (c : ascii)
| Dot
| Eps
| Cat (r1 r2 : regex)
| Alt (r1 r2 : regex)
| Star (r : regex).

(** The greedy star.  The body is tried first; after an iteration
    that consumed something the star goes on from there, after one
    that consumed nothing it stops and hands over to what follows;
    when the body has no match left, the star ends with no further
    iteration. *)
Fixpoint star_iter (step : string -> list string) (fuel : nat) (s : string)
  : list string :=
  match fuel with
  | O => [s]
  | S n =>
      (step s ≫= fun s' =>
         if decide (String.length s' < String.length s)%nat
         then star_iter step n s' else [s']) ++ [s]
  end.

(** [ends r s]: the remainders of [s] after each way [r] matches a
    prefix of [s], in the order the backtracking matcher tries them. *)
Fixpoint ends (r : regex) (s : string) : list string :=
  match r with
  | Chr c =>
      match s with
      | String c' s' => if Ascii.eqb c c' then [s'] else []
      | EmptyString => []
      end
  | Dot =>
      match s with
      | String c' s' => if Ascii.eqb c' "010" then [] else [s']
      | EmptyString => []
      end
  | Eps => [s]
  | Cat r1 r2 => ends r1 s ≫= ends r2
  | Alt r1 r2 => ends r1 s ++ ends r2 s
  | Star r' => star_iter (ends r') (String.length s) s
  end.

(** [re.search(r, s)]: the text of the match at the leftmost position
    that has one, and there the first match in backtracking order. *)
Fixpoint search (r : regex) (s : string) : option string :=
  match ends r s with
  | rest :: _ => Some (take (String.length s - String.length rest) s)
  | [] =>
      match s with
      | EmptyString => None
      | String _ s' => search r s'
      end
  end.

End Py.

Import Py.

(** ** State and exceptions *)

Definition M (S A : Type) : Type := S -> (exn + A) * S.

Definition ret {S A} (a : A) : M S A := fun s => (inr a, s).

Definition raise {S A} (e : exn) : M S A := fun s => (inl e, s).

Definition bind {S A B} (m : M S A) (k : A -> M S B) : M S B :=
  fun s =>
    match m s with
    | (inr a, s') => k a s'
    | (inl e, s') => (inl e, s')
    end.

Definition modify {S} (f : S -> S) : M S unit := fun s => (inr tt, f s).

Definition gets {S A} (f : S -> A) : M S A := fun s => (inr (f s), s).

Definition lift_exn {S A} (r : exn + A) : M S A :=
  match r with
  | inr a => ret a
  | inl e => raise e
  end.

Notation "'let*' x ':=' m 'in' k" := (bind m (fun x => k))
  (at level 10, x pattern, m at level 100, k at level 200).

(** [for x in xs: body(x)] *)
Fixpoint for_each {S X} (xs : list X) (body : X -> M S unit) : M S unit :=
  match xs with
  | [] => ret tt
  | x :: xs' => bind (body x) (fun _ => for_each xs' body)
  end.

(** ** The files the module reads and writes *)

(** A raster file saved by [QImage.save]: its path, the SVG text it
    was rendered from and the [QSize] arguments. *)
Record png_file : Type := PngFile {
  png_path : string;
  png_source : string;
  png_height : Z;
  png_width : Z
}.

Record world : Type := World {
  files : gmap string string;
  png_writes : list png_file
}.

(** [open(path, 'r').read()] *)
Definition read_file (path : string) : M world string :=
  fun w =>
    match files w !! path with
    | Some data => (inr data, w)
    | None => (inl FileNotFoundError, w)
    end.

(** [open(path, 'w').write(data)] *)
Definition write_file (path data : string) : M world unit :=
  modify (fun w => World (<[path := data]> (files w)) (png_writes w)).

(** ** images.py *)

Record Palette : Type := {
  COLOR_BACKGROUND_NORMAL : string;
  COLOR_SELECTION_LIGHT : string;
  COLOR_SELECTION_NORMAL : string;
  COLOR_FOREGROUND_DARK : string
}.

Definition IMAGE_BLACKLIST : list string := ["base_palette"].

Definition nl : string := String "010" EmptyString.
Definition dq : string := String "034" EmptyString.

Definition TEMPLATE_QRC_HEADER : string :=
  nl +:+ "<RCC warning=" +:+ dq
     +:+ "File created programmatically. All changes made in this file will be lost!"
     +:+ dq +:+ ">" +:+ nl
     +:+ "  <qresource prefix=" +:+ dq +:+ "{resource_prefix}" +:+ dq +:+ ">" +:+ nl.

Definition TEMPLATE_QRC_FILE : string := "    <file>rc/{fname}</file>".

Definition TEMPLATE_QRC_FOOTER : string :=
  nl +:+ "  </qresource>" +:+ nl
     +:+ "  <qresource prefix=" +:+ dq +:+ "{style_prefix}" +:+ dq +:+ ">" +:+ nl
     +:+ "      <file>style.qss</file>" +:+ nl
     +:+ "  </qresource>" +:+ nl
     +:+ "</RCC>" +:+ nl.

(** [name, ext = parts] *)
Definition unpack2 (parts : list string) : exn + (string * string) :=
  match parts with
  | [a; b] => inr (a, b)
  | _ => inl ValueError
  end.

(** [for f, file_colors in items: if f == fname: break], started with
    [file_colors] bound to [bound] (unbound when [None]); the value
    of [file_colors] after the loop. *)
Fixpoint for_break {V} (items : list (string * V)) (fname : string)
  (bound : option V) : option V :=
  match items with
  | [] => bound
  | (f, file_colors) :: rest =>
      if String.eqb f fname then Some file_colors
      else for_break rest fname (Some file_colors)
  end.

Definition _get_file_color_map (fname : string) (palette : Palette)
  : exn + dict string :=
  let color_disabled := COLOR_BACKGROUND_NORMAL palette in
  let color_focus := COLOR_SELECTION_LIGHT palette in
  let color_pressed := COLOR_SELECTION_NORMAL palette in
  let color_normal := COLOR_FOREGROUND_DARK palette in
  match unpack2 (split "." fname) with
  | inl e => inl e
  | inr (name, ext) =>
      let files_map :=
        dict_display
          [(fname,
            dict_display
              [(fname, color_normal);
               (name +:+ "_disabled." +:+ ext, color_disabled);
               (name +:+ "_focus." +:+ ext, color_focus);
               (name +:+ "_pressed." +:+ ext, color_pressed)])] in
      match for_break files_map fname None with
      | None => inl UnboundLocalError
      | Some file_colors =>
          match file_colors with
          | [] => inl AssertionError
          | _ :: _ => inr file_colors
          end
      end
  end.

Definition base_color : string := "#ff0000".

Definition _create_colored_svg (svg_path temp_svg_path color : string)
  : M world unit :=
  let* data := read_file svg_path in
  let new_data := replace base_color color data in
  write_file temp_svg_path new_data.

(** Qt raises nothing: a missing SVG gives a null image, and saving
    a null image writes no file. *)
Definition convert_svg_to_png (svg_path png_path : string) (height width : Z)
  : M world unit :=
  modify (fun w =>
    match files w !! svg_path with
    | Some svg => World (files w)
                        (png_writes w ++ [PngFile png_path svg height width])
    | None => w
    end).

Section PaletteImage.

(** [str.lower]; the case mapping of text outside ASCII is left open. *)
Variable lower : string -> string.

(** The loop over [color_palette.items()]: one substitution after the
    other, each on the result of the one before. *)
Definition fill_palette (color_palette : dict string) (data : string) : string :=
  fold_left
    (fun data item =>
       let '(color_name, color_value) := item in
       replace ("{{ " +:+ color_name +:+ " }}") (lower color_value) data)
    color_palette data.

(** [color_palette] is what [palette.color_palette()] returned. *)
Definition create_palette_image (color_palette : dict string)
  (base_svg_path path : string) : M world (string * string) :=
  let base_palette_svg_path := path_join base_svg_path "base_palette.svg" in
  let palette_svg_path := path_join path "palette.svg" in
  let palette_png_path := path_join path "palette.png" in
  let* data := read_file base_palette_svg_path in
  let data := fill_palette color_palette data in
  let* _ := write_file palette_svg_path data in
  let* _ := convert_svg_to_png palette_svg_path palette_png_path 4000 4000 in
  ret (palette_svg_path, palette_png_path).

End PaletteImage.

(** [r"\/.*\.png"] *)
Definition default_pattern : regex :=
  Cat (Chr "/") (Cat (Star Dot)
    (Cat (Chr ".") (Cat (Chr "p") (Cat (Chr "n") (Chr "g"))))).

(** The matches collected by the loop over the lines. *)
Fixpoint collect_links (compiled_exp : regex) (lines : list string)
  (rc_list : list string) : list string :=
  match lines with
  | [] => rc_list
  | line :: lines' =>
      match search compiled_exp line with
      | Some m => collect_links compiled_exp lines' (rc_list ++ [m])
      | None => collect_links compiled_exp lines' rc_list
      end
  end.

(** The local variables of [create_images] next to the files. *)
Record run : Type := Run {
  run_world : world;
  num_png : Z;
  num_ignored : Z;
  rc_list : list string
}.

(** What [create_images] logs when it is done. *)
Record stats : Type := Stats {
  stat_svg : Z;
  stat_ignored : Z;
  stat_png : Z;
  stat_rc_links : Z;
  stat_rc_unmatched : list string
}.

(** A computation on the files, run inside [create_images]. *)
Definition in_world {A} (m : M world A) : M run A :=
  fun r =>
    match m (run_world r) with
    | (res, w') => (res, Run w' (num_png r) (num_ignored r) (rc_list r))
    end.

Definition heights : list (Z * string) := [(32, ".png"); (64, "@2x.png")].

Section Paths.

(** The paths imported from the [qdarkstyle] package. *)
Variable STYLES_SCSS_FILEPATH : string.
Variable QRC_FILEPATH : string.

(** The pattern is wrapped in one group, so [match[1]] is the text
    of the whole match. *)
Definition get_rc_links_from_scss (pattern : regex) : M world (list string) :=
  let* data := read_file STYLES_SCSS_FILEPATH in
  let lines := split "010" data in
  let compiled_exp := pattern in
  let rc_list := collect_links compiled_exp lines [] in
  ret (list_of_set rc_list).

(** The body of [for color_svg_name, color in color_files.items()]. *)
Definition variant_body (rc_path temp_dir : string) (height : Z) (ext : string)
  (svg_path : string) (item : string * string) : M run unit :=
  let '(color_svg_name, color) := item in
  let width := height in
  let base_height := 32 in
  let temp_svg_path := path_join temp_dir color_svg_name in
  let* _ := in_world (_create_colored_svg svg_path temp_svg_path color) in
  let png_fname := replace ".svg" ext color_svg_name in
  let png_path := path_join rc_path png_fname in
  let* _ := in_world (convert_svg_to_png temp_svg_path png_path height width) in
  let* _ := modify (fun r => Run (run_world r) (num_png r + 1) (num_ignored r) (rc_list r)) in
  if Z.eqb height base_height then
    let rc_base := basename rc_path in
    let png_base := basename png_fname in
    let rc_name := "/" +:+ path_join rc_base png_base in
    let* l := gets rc_list in
    match list_remove rc_name l with
    | inr l' => modify (fun r => Run (run_world r) (num_png r) (num_ignored r) l')
    | inl ValueError => ret tt
    | inl e => raise e
    end
  else ret tt.

(** The body of [for svg_fname in svg_fnames]. *)
Definition template_body (base_svg_path rc_path temp_dir : string)
  (palette : Palette) (height : Z) (ext : string) (svg_fname : string)
  : M run unit :=
  let svg_name := List.hd EmptyString (split "." svg_fname) in
  if negb (bool_decide (svg_name ∈ IMAGE_BLACKLIST)) then
    let svg_path := path_join base_svg_path svg_fname in
    let* color_files := lift_exn (_get_file_color_map svg_fname palette) in
    for_each color_files (variant_body rc_path temp_dir height ext svg_path)
  else
    modify (fun r => Run (run_world r) (num_png r) (num_ignored r + 1) (rc_list r)).

(** [svg_listing] is what [os.listdir(base_svg_path)] returned and
    [temp_dir] what [tempfile.mkdtemp()] returned. *)
Definition create_images (svg_listing : list string) (temp_dir : string)
  (base_svg_path rc_path : string) (palette : Palette) : M world stats :=
  let svg_fnames := List.filter (endswith ".svg") svg_listing in
  let num_svg := Z.of_nat (length svg_fnames) in
  let* links := get_rc_links_from_scss default_pattern in
  let num_rc_list := Z.of_nat (length links) in
  fun w =>
    match
      for_each heights (fun '(height, ext) =>
        for_each svg_fnames
          (template_body base_svg_path rc_path temp_dir palette height ext))
        (Run w 0 0 links)
    with
    | (inr _, r) =>
        (inr (Stats num_svg (num_ignored r) (num_png r) num_rc_list (rc_list r)),
         run_world r)
    | (inl e, r) => (inl e, run_world r)
    end.

(** [rc_listing] is what [os.listdir(RC_PATH)] returned. *)
Definition generate_qrc_file (rc_listing : list string)
  (resource_prefix style_prefix : string) : M world unit :=
  let files :=
    map (fun fname => format TEMPLATE_QRC_FILE "fname" fname)
        (sorted rc_listing) in
  let qrc_content :=
    format TEMPLATE_QRC_HEADER "resource_prefix" resource_prefix
    +:+ join nl files
    +:+ format TEMPLATE_QRC_FOOTER "style_prefix" style_prefix in
  write_file QRC_FILEPATH qrc_content.

End Paths.

(** ** Notions used in the statements *)

(** *** State variants *)

(** The four entries of [_get_file_color_map], in the order of the
    dictionary display. *)
Definition variant_entries (palette : Palette) (name ext : string)
  : list (string * string) :=
  [(name +:+ "." +:+ ext, COLOR_FOREGROUND_DARK palette);
   (name +:+ "_disabled." +:+ ext, COLOR_BACKGROUND_NORMAL palette);
   (name +:+ "_focus." +:+ ext, COLOR_SELECTION_LIGHT palette);
   (name +:+ "_pressed." +:+ ext, COLOR_SELECTION_NORMAL palette)].

(** What the four state variants put between base name and suffix. *)
Definition variant_tails : list string :=
  [""; "_disabled"; "_focus"; "_pressed"].

(** [svg_fname.split('.')[0]] *)
Definition stem (svg_fname : string) : string :=
  List.hd EmptyString (split "." svg_fname).

Definition blacklisted (svg_fname : string) : bool :=
  bool_decide (stem svg_fname ∈ IMAGE_BLACKLIST).

(** The names of the raster files of one listed template at one size. *)
Definition png_fnames (ext svg_fname : string) : list string :=
  if blacklisted svg_fname then []
  else map (fun tail => stem svg_fname +:+ tail +:+ ext) variant_tails.

(** The templates of a listing that are turned into raster files. *)
Definition processed (svg_listing : list string) : list string :=
  List.filter (fun f => negb (blacklisted f))
              (List.filter (endswith ".svg") svg_listing).

(** The names of the raster files of one pass over the templates. *)
Definition pass_fnames (ext : string) (svg_fnames : list string) : list string :=
  svg_fnames ≫= png_fnames ext.

(** The names of all raster files of a run, in the order written. *)
Definition all_png_fnames (svg_listing : list string) : list string :=
  heights ≫= fun size =>
    pass_fnames (snd size) (List.filter (endswith ".svg") svg_listing).

(** Reversal, to compare strings from their ends. *)
Fixpoint srev (s : string) : string :=
  match s with
  | EmptyString => EmptyString
  | String c s' => srev s' +:+ String c EmptyString
  end.

(** What one template adds to a base name that makes it collide with
    the output of another template. *)
Definition clash_extensions : list string :=
  ["_disabled"; "_focus"; "_pressed";
   "@2x"; "_disabled@2x"; "_focus@2x"; "_pressed@2x"].

Definition clash_free (svg_fnames : list string) : Prop :=
  forall f1 f2 e,
    f1 ∈ svg_fnames -> f2 ∈ svg_fnames -> e ∈ clash_extensions ->
    stem f1 <> stem f2 +:+ e.

(** *** Substitution *)

(** No occurrence of [old] in [x +:+ y] starts inside [x]. *)
Fixpoint no_start (old x y : string) : bool :=
  match x with
  | EmptyString => true
  | String _ x' => negb (String.prefix old (x +:+ y)) && no_start old x' y
  end.

(** Neither string is a prefix of the other. *)
Definition incomparable (a b : string) : bool :=
  negb (String.prefix a b) && negb (String.prefix b a).

(** [f] holds of every non-empty suffix of [s]. *)
Fixpoint all_suffixes (f : string -> bool) (s : string) : bool :=
  match s with
  | EmptyString => true
  | String _ s' => f s && all_suffixes f s'
  end.

(** [new] cannot overlap the token [old]: no non-empty proper suffix
    of [old] begins [new] or begins with [new], and no non-empty suffix
    of [new] begins [old] or begins with [old].  So [new] is not
    empty, neither string occurs in the other, and no end of one is a
    beginning of the other. *)
Definition overlap_free (old new : string) : bool :=
  match old with
  | EmptyString => false
  | String _ t =>
      all_suffixes (fun s => incomparable s new) t
      && all_suffixes (fun q => incomparable old q) new
  end.

(** A color in the palette's notation: ['#'] followed by characters
    other than ['#'], neither a prefix of the placeholder nor an
    extension of it. *)
Definition distinct_hash_color (color : string) : bool :=
  match color with
  | String "#" digits =>
      Nat.eqb (count "#" digits) 0 && incomparable base_color color
  | _ => false
  end.

(** *** Reconciliation *)

(** The reference path checked against the stylesheet. *)
Definition rc_name (rc_path png_fname : string) : string :=
  "/" +:+ path_join (basename rc_path) (basename png_fname).

(** [try: l.remove(x) except ValueError: pass] *)
Definition discard (x : string) (l : list string) : list string :=
  match list_remove x l with
  | inr l' => l'
  | inl _ => l
  end.

Definition discard_all (xs l : list string) : list string :=
  fold_left (fun acc x => discard x acc) xs l.

(** *** Runs *)

(** The file at [p] exists. *)
Definition present (p : string) (r : run) : Prop :=
  is_Some (files (run_world r) !! p).

(** From [r] to [r']: the raster files [paths] were written in this
    order, [ignored] templates were skipped, the reference paths
    [removed] were discarded in this order, and no file disappeared. *)
Definition extends (r r' : run) (paths : list string) (ignored : Z)
  (removed : list string) : Prop :=
  map png_path (png_writes (run_world r'))
    = map png_path (png_writes (run_world r)) ++ paths /\
  num_png r' = num_png r + Z.of_nat (length paths) /\
  num_ignored r' = num_ignored r + ignored /\
  rc_list r' = discard_all removed (rc_list r) /\
  (forall p, present p r -> present p r').

(** The templates a pass can process: SVG names that are blacklisted,
    or have one ['.'] and a file in the template directory. *)
Definition processable (base_svg_path : string) (files0 : gmap string string)
  (svg_fnames : list string) : Prop :=
  forall f, f ∈ svg_fnames ->
    endswith ".svg" f = true /\
    (blacklisted f = false ->
     count "." f = 1%nat /\ is_Some (files0 !! path_join base_svg_path f)).

(** *** Scenarios *)

(** The palette of the end-to-end scenario. *)
Definition scenario_palette : Palette :=
  {| COLOR_BACKGROUND_NORMAL := "#222222";
     COLOR_SELECTION_LIGHT := "#333333";
     COLOR_SELECTION_NORMAL := "#444444";
     COLOR_FOREGROUND_DARK := "#111111" |}.

(** The stylesheet of the extraction scenario. *)
Definition scenario_scss : string :=
  "background: url(/rc/foo.png);" +:+ nl +:+ "other: url(/rc/bar.png);".

(** A template directory, a stylesheet and no raster file yet. *)
Definition scenario_world : world :=
  World (list_to_map
           [("qss/_styles.scss",
             "background: url(/rc/icon.png);" +:+ nl
             +:+ "other: url(/rc/icon_hover.png);");
            ("svg/icon.svg", "<path fill=#ff0000/>");
            ("svg/icon_disabled.svg", "<rect fill=#ff0000/>");
            ("svg/a.b.svg", "<circle fill=#ff0000/>");
            ("svg/base_palette.svg", "<g/>")])
        [].

(** *** The default pattern *)

(** The suffixes of [s], the shortest first: what the greedy [.*]
    leaves to the rest of the pattern, in the order it is tried. *)
Fixpoint suffixes_rev (s : string) : list string :=
  match s with
  | EmptyString => [EmptyString]
  | String _ s' => suffixes_rev s' ++ [s]
  end.

(** The tail [\.png] of the default pattern. *)
Definition png_literal : regex :=
  Cat (Chr ".") (Cat (Chr "p") (Cat (Chr "n") (Chr "g"))).

(** *** Rendered files *)

(** What each state adds to the base name, with its color. *)
Definition variant_colors (palette : Palette) : list (string * string) :=
  [("", COLOR_FOREGROUND_DARK palette);
   ("_disabled", COLOR_BACKGROUND_NORMAL palette);
   ("_focus", COLOR_SELECTION_LIGHT palette);
   ("_pressed", COLOR_SELECTION_NORMAL palette)].

(** The raster files of one listed template at one size, rendered
    from the template text that [files0] holds. *)
Definition rendered (files0 : gmap string string)
  (base_svg_path rc_path : string) (palette : Palette) (size : Z * string)
  (svg_fname : string) : list png_file :=
  if blacklisted svg_fname then []
  else match files0 !! path_join base_svg_path svg_fname with
       | Some data =>
           map (fun tc =>
                  PngFile (path_join rc_path (stem svg_fname +:+ fst tc +:+ snd size))
                          (replace base_color (snd tc) data)
                          (fst size) (fst size))
               (variant_colors palette)
       | None => []
       end.

(** No temporary SVG is written over a template. *)
Definition temp_apart (temp_dir base_svg_path : string)
  (svg_fnames : list string) : Prop :=
  forall f g tail,
    f ∈ svg_fnames -> g ∈ svg_fnames -> tail ∈ variant_tails ->
    path_join temp_dir (stem f +:+ tail +:+ ".svg") <> path_join base_svg_path g.

(** The files at [paths] are as in [files0]. *)
Definition kept (files0 : gmap string string) (paths : list string) (r : run)
  : Prop :=
  forall p, p ∈ paths -> files (run_world r) !! p = files0 !! p.

(** *** Palette image *)

(** [str.lower] on ASCII text: [A] to [Z] become [a] to [z]. *)
Definition ascii_lower_char (c : ascii) : ascii :=
  let n := nat_of_ascii c in
  if Nat.leb 65 n && Nat.leb n 90 then ascii_of_nat (n + 32) else c.

Fixpoint ascii_lower (s : string) : string :=
  match s with
  | EmptyString => EmptyString
  | String c s' => String (ascii_lower_char c) (ascii_lower s')
  end.

(** A palette template read as text and placeholders [{{ NAME }}]. *)
Inductive piece : Type :=
| Text (s : string)
| Hole (name : string).

Definition render_piece (p : piece) : string :=
  match p with
  | Text s => s
  | Hole name => "{{ " +:+ name +:+ " }}"
  end.

Definition render (pieces : list piece) : string :=
  fold_right (fun p rest => render_piece p +:+ rest) EmptyString pieces.

(** Text without ['{'], placeholder names without [' '] and ['{']. *)
Definition plain_piece (p : piece) : Prop :=
  match p with
  | Text s => count "{" s = O
  | Hole name => count " " name = O /\ count "{" name = O
  end.

(** A placeholder whose name the palette has becomes its color in
    lower case; every other piece stays. *)
Definition fill_piece (lower : string -> string) (color_palette : dict string)
  (p : piece) : piece :=
  match p with
  | Text s => Text s
  | Hole name =>
      match dict_get name color_palette with
      | Some color_value => Text (lower color_value)
      | None => Hole name
      end
  end.

(** * Properties *)

(** ** Strings *)

#[local] Arguments String.append !_ _ / : simpl nomatch.

(** Closes [NoDup] of a list of strings told apart by [tac]. *)
Ltac NoDup_strings tac :=
  repeat (apply NoDup_cons; split;
          [rewrite ?elem_of_cons, elem_of_nil;
           let H := fresh in
           intros H; repeat destruct H as [H | H]; try contradiction; tac H |]);
  apply NoDup_nil; exact I.

Section StringFacts.

Lemma sapp_assoc (a b c : string) : (a +:+ b) +:+ c = a +:+ (b +:+ c).
Proof. induction a as [|x a IH]; simpl; [reflexivity | now rewrite IH]. Qed.

Lemma sapp_nil_r (a : string) : a +:+ "" = a.
Proof. induction a as [|x a IH]; simpl; [reflexivity | now rewrite IH]. Qed.

Lemma slength_app (a b : string) :
  String.length (a +:+ b) = (String.length a + String.length b)%nat.
Proof. induction a as [|x a IH]; simpl; [reflexivity | now rewrite IH]. Qed.

Lemma count_app (c : ascii) (a b : string) :
  count c (a +:+ b) = (count c a + count c b)%nat.
Proof. induction a as [|x a IH]; simpl; [reflexivity | rewrite IH; lia]. Qed.

Lemma split_nosep (sep : ascii) (s : string) :
  count sep s = O -> split sep s = [s].
Proof.
  induction s as [|c s IH]; simpl; [reflexivity |].
  destruct (Ascii.eqb c sep); [discriminate |].
  intros H. now rewrite IH.
Qed.

Lemma split_cons (sep : ascii) (a b : string) :
  count sep a = O -> split sep (a +:+ String sep b) = a :: split sep b.
Proof.
  induction a as [|c a IH]; simpl.
  - intros _. now rewrite Ascii.eqb_refl.
  - destruct (Ascii.eqb c sep); [discriminate |].
    intros H. now rewrite IH.
Qed.

(** A string with one separator splits into the two pieces around it. *)
Lemma split_two (sep : ascii) (s : string) :
  count sep s = 1%nat ->
  exists a b, split sep s = [a; b] /\ s = a +:+ String sep b /\
              count sep a = O /\ count sep b = O.
Proof.
  induction s as [|c s IH]; simpl; [discriminate |].
  destruct (Ascii.eqb c sep) eqn:E.
  - intros H. apply Ascii.eqb_eq in E. subst c.
    exists "", s. rewrite split_nosep by lia. repeat split; simpl; lia.
  - intros H. destruct (IH H) as (a & b & Hs & -> & Ha & Hb).
    exists (String c a), b. rewrite Hs. simpl. rewrite E. now repeat split.
Qed.

Lemma split_length (sep : ascii) (s : string) :
  length (split sep s) = S (count sep s).
Proof.
  induction s as [|c s IH]; simpl; [reflexivity |].
  destruct (Ascii.eqb c sep); simpl; [now rewrite IH |].
  destruct (split sep s); simpl in *; lia.
Qed.

End StringFacts.

(** ** Substitution *)

Section Replace.

Lemma prefix_cons (a b : ascii) (s1 s2 : string) :
  String.prefix (String a s1) (String b s2) = Ascii.eqb a b && String.prefix s1 s2.
Proof.
  simpl. destruct (ascii_dec a b) as [-> | Hne].
  - now rewrite Ascii.eqb_refl.
  - apply Ascii.eqb_neq in Hne. now rewrite Hne.
Qed.

Lemma prefix_app_self (a y : string) : String.prefix a (a +:+ y) = true.
Proof.
  induction a as [|c a IH]; [now destruct y |].
  simpl String.append. rewrite prefix_cons, Ascii.eqb_refl. exact IH.
Qed.

Lemma prefix_app_r (a b y : string) :
  String.prefix a b = true -> String.prefix a (b +:+ y) = true.
Proof.
  revert b. induction a as [|c a IH]; intros b H; [now destruct (b +:+ y) |].
  destruct b as [|d b]; [discriminate |].
  simpl String.append. rewrite prefix_cons in *.
  apply andb_prop in H as [-> H]. simpl. now apply IH.
Qed.

Lemma prefix_inv (a s : string) :
  String.prefix a s = true -> exists r, s = a +:+ r.
Proof.
  revert s. induction a as [|c a IH]; intros s H; [now exists s |].
  destruct s as [|d s]; [discriminate |].
  rewrite prefix_cons in H. apply andb_prop in H as [Hc H].
  apply Ascii.eqb_eq in Hc. subst d.
  destruct (IH _ H) as [r ->]. now exists r.
Qed.

(** A prefix of [b +:+ y] is a prefix of [b] or extends [b]. *)
Lemma prefix_app_cases (a b y : string) :
  String.prefix a (b +:+ y) = true ->
  String.prefix a b = true \/ String.prefix b a = true.
Proof.
  revert b. induction a as [|c a IH]; intros b H.
  - left. now destruct b.
  - destruct b as [|d b]; [now right |].
    simpl String.append in H. rewrite !prefix_cons in *.
    apply andb_prop in H as [Hc H]. rewrite Hc.
    rewrite Ascii.eqb_sym in Hc. rewrite Hc. simpl. now apply IH.
Qed.

Lemma no_start_cons (old : string) (c : ascii) (x y : string) :
  no_start old (String c x) y
  = negb (String.prefix old (String c (x +:+ y))) && no_start old x y.
Proof. reflexivity. Qed.

Lemma replace_go_skip (old new x y : string) :
  replace_go old new (String.length x) (x +:+ y) = replace_go old new 0 y.
Proof.
  induction x as [|c x IH]; simpl; [| exact IH].
  destruct y; reflexivity.
Qed.

Lemma replace_go_clean (old new x y : string) :
  no_start old x y = true ->
  replace_go old new 0 (x +:+ y) = x +:+ replace_go old new 0 y.
Proof.
  induction x as [|c x IH]; [reflexivity |].
  intros H. rewrite no_start_cons in H. apply andb_prop in H as [Hp Hx].
  apply negb_true_iff in Hp.
  change (String c x +:+ y) with (String c (x +:+ y)) in *.
  cbn [replace_go]. rewrite Hp. rewrite IH by assumption. reflexivity.
Qed.

Lemma replace_go_occurrence (h : ascii) (t new y : string) :
  replace_go (String h t) new 0 (String h t +:+ y)
  = new +:+ replace_go (String h t) new 0 y.
Proof.
  change (String h t +:+ y) with (String h (t +:+ y)).
  cbn [replace_go].
  change (String h (t +:+ y)) with (String h t +:+ y).
  rewrite prefix_app_self. f_equal.
  replace (String.length (String h t) - 1)%nat with (String.length t)
    by (simpl; lia).
  apply replace_go_skip.
Qed.

Lemma contains_cons (old : string) (c : ascii) (s : string) :
  contains old (String c s) = String.prefix old (String c s) || contains old s.
Proof. reflexivity. Qed.

Lemma replace_go_absent (h : ascii) (t new s : string) :
  contains (String h t) s = false -> replace_go (String h t) new 0 s = s.
Proof.
  induction s as [|c s IH]; [reflexivity |].
  rewrite contains_cons. intros H. apply orb_false_elim in H as [Hp Hc].
  cbn [replace_go]. rewrite Hp. now rewrite IH.
Qed.

Lemma no_start_app (old a b y : string) :
  no_start old (a +:+ b) y = no_start old a (b +:+ y) && no_start old b y.
Proof.
  induction a as [|c a IH]; [reflexivity |].
  change (String c a +:+ b) with (String c (a +:+ b)).
  rewrite !no_start_cons, IH, sapp_assoc. now rewrite andb_assoc.
Qed.

Lemma no_start_contains (old x y : string) :
  no_start old x y = true -> contains old y = false ->
  contains old (x +:+ y) = false.
Proof.
  induction x as [|c x IH]; [intros _ H; exact H |].
  intros H Hy. rewrite no_start_cons in H. apply andb_prop in H as [Hp Hx].
  apply negb_true_iff in Hp.
  change (String c x +:+ y) with (String c (x +:+ y)) in *.
  rewrite contains_cons, Hp. simpl. now apply IH.
Qed.

Lemma no_start_absent (h : ascii) (t x y : string) :
  no_start (String h t) x y = true -> contains (String h t) x = false.
Proof.
  induction x as [|c x IH]; [reflexivity |].
  intros H. rewrite no_start_cons in H. apply andb_prop in H as [Hp Hx].
  apply negb_true_iff in Hp.
  rewrite contains_cons, (IH Hx), orb_false_r.
  destruct (String.prefix (String h t) (String c x)) eqn:E; [| reflexivity].
  apply prefix_app_r with (y := y) in E.
  change (String c x +:+ y) with (String c (x +:+ y)) in E. congruence.
Qed.

(** Either [old] is absent, or the string splits at its first occurrence. *)
Lemma first_occurrence (h : ascii) (t s : string) :
  contains (String h t) s = false \/
  exists p r, s = p +:+ String h t +:+ r /\
              no_start (String h t) p (String h t +:+ r) = true.
Proof.
  induction s as [|c s IH]; [now left |].
  destruct (String.prefix (String h t) (String c s)) eqn:E.
  - right. destruct (prefix_inv _ _ E) as [r Hr].
    exists "", r. split; [exact Hr | reflexivity].
  - destruct IH as [IH | (p & r & -> & Hp)].
    + left. now rewrite contains_cons, E, IH.
    + right. exists (String c p), r. split; [reflexivity |].
      rewrite no_start_cons, E. exact Hp.
Qed.

(** *** A token whose first character does not occur again in it *)

Section Marker.

Variable h : ascii.
Variable t : string.
Hypothesis marker_once : count h t = O.

Lemma prefix_stop (u q r : string) :
  count h u = O ->
  String.prefix u (q +:+ String h r) = true -> String.prefix u q = true.
Proof.
  revert q. induction u as [|a u IH]; intros q Hc H; [now destruct q |].
  simpl in Hc. destruct (Ascii.eqb a h) eqn:Ea; [discriminate |].
  destruct q as [|b q].
  - simpl String.append in H. rewrite prefix_cons, Ea in H. discriminate.
  - simpl String.append in H. rewrite prefix_cons in *.
    apply andb_prop in H as [-> H]. simpl. now apply IH.
Qed.

(** An occurrence that starts before a later copy of [h] ends before it. *)
Lemma occurrence_before (q r : string) :
  String.prefix (String h t) (q +:+ String h r) = true ->
  q <> "" -> String.prefix (String h t) q = true.
Proof.
  intros H Hq. destruct q as [|b q]; [contradiction |].
  simpl String.append in H. rewrite prefix_cons in *.
  apply andb_prop in H as [-> H]. simpl.
  now apply prefix_stop with (r := r).
Qed.

Lemma absent_no_start (p r : string) :
  contains (String h t) p = false ->
  no_start (String h t) p (String h r) = true.
Proof.
  induction p as [|c p IH]; [reflexivity |].
  rewrite contains_cons. intros H. apply orb_false_elim in H as [Hp Hc].
  rewrite no_start_cons, (IH Hc), andb_true_r. apply negb_true_iff.
  destruct (String.prefix (String h t) (String c (p +:+ String h r))) eqn:E;
    [| reflexivity].
  apply (occurrence_before (String c p)) in E; [congruence | discriminate].
Qed.

Lemma no_marker_no_start (x y : string) :
  count h x = O -> no_start (String h t) x y = true.
Proof.
  induction x as [|c x IH]; [reflexivity |].
  cbn [count]. destruct (Ascii.eqb c h) eqn:E; [discriminate |].
  intros H. rewrite no_start_cons, (IH H), andb_true_r.
  rewrite prefix_cons, Ascii.eqb_sym, E. reflexivity.
Qed.

(** All occurrences are replaced and the text between them is kept. *)
Lemma replace_join (new : string) (pieces : list string) :
  Forall (fun p => contains (String h t) p = false) pieces ->
  replace (String h t) new (join (String h t) pieces) = join new pieces.
Proof.
  unfold replace.
  induction pieces as [|p [|q rest] IH]; intros Hall.
  - reflexivity.
  - apply replace_go_absent. now inversion Hall.
  - inversion Hall as [|? ? Hp Hrest]; subst.
    change (join (String h t) (p :: q :: rest))
      with (p +:+ String h t +:+ join (String h t) (q :: rest)).
    change (join new (p :: q :: rest)) with (p +:+ new +:+ join new (q :: rest)).
    rewrite replace_go_clean by now apply absent_no_start.
    rewrite replace_go_occurrence. now rewrite (IH Hrest).
Qed.

(** Every text is such a sequence of pieces. *)
Lemma join_pieces (s : string) :
  exists pieces, pieces <> [] /\
    Forall (fun p => contains (String h t) p = false) pieces /\
    s = join (String h t) pieces.
Proof.
  remember (String.length s) as n eqn:Hn. revert s Hn.
  induction n as [n IH] using lt_wf_ind. intros s ->.
  destruct (first_occurrence h t s) as [Habs | (p & r & -> & Hp)].
  - exists [s]. repeat split; [discriminate | now constructor].
  - destruct (IH (String.length r)) with (s := r) as (ps & Hne & Hall & ->);
      [rewrite !slength_app; simpl; lia | reflexivity |].
    exists (p :: ps). split; [discriminate |]. split.
    + constructor; [| exact Hall]. now apply no_start_absent in Hp.
    + destruct ps; [contradiction | reflexivity].
Qed.

End Marker.

(** *** A replacement that cannot overlap the token *)

Lemma prefix_cancel (q s y : string) :
  String.prefix (q +:+ s) (q +:+ y) = String.prefix s y.
Proof.
  induction q as [|a q IH]; [reflexivity |].
  simpl String.append. now rewrite prefix_cons, Ascii.eqb_refl.
Qed.

Lemma all_suffixes_elim (f : string -> bool) (t x s : string) :
  all_suffixes f t = true -> t = x +:+ s -> s <> "" -> f s = true.
Proof.
  revert t. induction x as [|a x IH]; intros t H Ht Hs.
  - simpl in Ht. subst t. destruct s as [|b s]; [contradiction |].
    cbn [all_suffixes] in H. now apply andb_prop in H as [H _].
  - subst t. simpl String.append in H. cbn [all_suffixes] in H.
    apply andb_prop in H as [_ H]. now apply (IH (x +:+ s)).
Qed.

Lemma incomparable_app (a b y : string) :
  incomparable a b = true -> String.prefix a (b +:+ y) = false.
Proof.
  unfold incomparable. intros H. apply andb_prop in H as [H1 H2].
  apply negb_true_iff in H1, H2.
  destruct (String.prefix a (b +:+ y)) eqn:E; [| reflexivity].
  apply prefix_app_cases in E as [E | E]; congruence.
Qed.

(** Before the first occurrence, the replacement starts no new one. *)
Lemma no_start_before (h : ascii) (t new p r R : string) :
  all_suffixes (fun s => incomparable s new) t = true ->
  no_start (String h t) p (String h t +:+ r) = true ->
  no_start (String h t) p (new +:+ R) = true.
Proof.
  intros HA. induction p as [|a p IH]; [reflexivity |].
  intros H. rewrite no_start_cons in H. apply andb_prop in H as [Hp Hx].
  apply negb_true_iff in Hp.
  rewrite no_start_cons, (IH Hx), andb_true_r. apply negb_true_iff.
  change (String a (p +:+ new +:+ R)) with (String a p +:+ new +:+ R).
  change (String a (p +:+ String h t +:+ r))
    with (String a p +:+ String h t +:+ r) in Hp.
  destruct (String.prefix (String h t) (String a p +:+ new +:+ R)) eqn:E;
    [| reflexivity].
  pose proof E as E'. apply prefix_app_cases in E' as [E' | E'].
  - apply prefix_app_r with (y := String h t +:+ r) in E'. congruence.
  - destruct (prefix_inv _ _ E') as [s Hs].
    destruct s as [|b s].
    + rewrite sapp_nil_r in Hs. rewrite Hs in Hp at 1.
      rewrite prefix_app_self in Hp. discriminate Hp.
    + rewrite Hs in E at 1. rewrite prefix_cancel in E.
      simpl String.append in Hs. injection Hs as _ Ht.
      rewrite (incomparable_app _ _ _
                 (all_suffixes_elim _ t p (String b s) HA Ht
                    ltac:(discriminate))) in E.
      discriminate E.
Qed.

(** Inside the replacement no occurrence starts either. *)
Lemma no_start_inside (old new R : string) :
  all_suffixes (fun q => incomparable old q) new = true ->
  no_start old new R = true.
Proof.
  induction new as [|a new IH]; [reflexivity |].
  cbn [all_suffixes]. intros H. apply andb_prop in H as [H1 H2].
  rewrite no_start_cons, (IH H2), andb_true_r. apply negb_true_iff.
  change (String a (new +:+ R)) with (String a new +:+ R).
  now apply incomparable_app.
Qed.

(** After the substitution by such a replacement the token is gone. *)
Lemma replace_go_gone (h : ascii) (t new s : string) :
  overlap_free (String h t) new = true ->
  contains (String h t) (replace_go (String h t) new 0 s) = false.
Proof.
  unfold overlap_free. intros H. apply andb_prop in H as [HA HB].
  remember (String.length s) as n eqn:Hn. revert s Hn.
  induction n as [n IH] using lt_wf_ind. intros s ->.
  destruct (first_occurrence h t s) as [Habs | (p & r & -> & Hp)].
  - now rewrite replace_go_absent.
  - rewrite replace_go_clean by exact Hp.
    rewrite replace_go_occurrence.
    set (R := replace_go (String h t) new 0 r).
    assert (HR : contains (String h t) R = false).
    { apply (IH (String.length r)); [rewrite !slength_app; simpl; lia | reflexivity]. }
    rewrite <- sapp_assoc. apply no_start_contains; [| exact HR].
    rewrite no_start_app. apply andb_true_intro. split.
    + now apply no_start_before with (r := r).
    + now apply no_start_inside.
Qed.

End Replace.

(** ** The state variants of a template *)

Section Variants.

Variable palette : Palette.

Lemma tail_neq (name a b : string) : a <> b -> name +:+ a <> name +:+ b.
Proof. intros Hab H. now apply String.app_inj in H. Qed.

Lemma tail_eqb (name a b : string) :
  a <> b -> String.eqb (name +:+ a) (name +:+ b) = false.
Proof. intros H. now apply String.eqb_neq, tail_neq. Qed.

Lemma file_color_map_split (fname name ext : string) :
  split "." fname = [name; ext] ->
  fname = name +:+ "." +:+ ext ->
  _get_file_color_map fname palette = inr (variant_entries palette name ext).
Proof.
  intros Hs ->. unfold _get_file_color_map. rewrite Hs. simpl unpack2. cbv iota beta.
  unfold dict_display, variant_entries. simpl.
  repeat (progress (simpl; rewrite ?String.eqb_refl, ?tail_eqb by discriminate)).
  reflexivity.
Qed.

Lemma file_color_map_ok (fname : string) :
  count "." fname = 1%nat ->
  exists name ext,
    split "." fname = [name; ext] /\ fname = name +:+ "." +:+ ext /\
    count "." name = O /\ count "." ext = O /\
    _get_file_color_map fname palette = inr (variant_entries palette name ext).
Proof.
  intros H. destruct (split_two _ _ H) as (name & ext & Hs & Hf & Hn & He).
  exists name, ext. repeat split; try assumption.
  now apply file_color_map_split.
Qed.

Lemma variant_keys_NoDup (name ext : string) :
  NoDup (keys (variant_entries palette name ext)).
Proof.
  unfold keys, variant_entries. simpl.
  NoDup_strings ltac:(fun H => apply String.app_inj in H; discriminate H).
Qed.

End Variants.

(** C1. A template filename with exactly one ['.'] splits into
    [name] and [ext], and [_get_file_color_map] returns a mapping of
    exactly four entries whose keys are [name.ext], [name_disabled.ext],
    [name_focus.ext] and [name_pressed.ext], pairwise distinct. *)
Theorem C1_four_variant_keys (fname : string) (palette : Palette) :
  count "." fname = 1%nat ->
  exists name ext file_colors,
    split "." fname = [name; ext] /\
    fname = name +:+ "." +:+ ext /\
    _get_file_color_map fname palette = inr file_colors /\
    keys file_colors =
      [name +:+ "." +:+ ext; name +:+ "_disabled." +:+ ext;
       name +:+ "_focus." +:+ ext; name +:+ "_pressed." +:+ ext] /\
    length file_colors = 4%nat /\
    NoDup (keys file_colors).
Proof.
  intros H.
  destruct (file_color_map_ok palette fname H) as (name & ext & Hs & Hf & _ & _ & Hm).
  exists name, ext, (variant_entries palette name ext).
  repeat split; try assumption; try reflexivity.
  apply variant_keys_NoDup.
Qed.

Lemma C1_four_variant_keys_witness :
  exists name ext file_colors,
    split "." "icon.svg" = [name; ext] /\
    "icon.svg" = name +:+ "." +:+ ext /\
    _get_file_color_map "icon.svg" scenario_palette = inr file_colors /\
    keys file_colors =
      [name +:+ "." +:+ ext; name +:+ "_disabled." +:+ ext;
       name +:+ "_focus." +:+ ext; name +:+ "_pressed." +:+ ext] /\
    length file_colors = 4%nat /\
    NoDup (keys file_colors).
Proof. apply (C1_four_variant_keys "icon.svg" scenario_palette). reflexivity. Defined.

(** C10. In the mapping returned for a filename with exactly one
    ['.'], the base variant carries the palette's COLOR_FOREGROUND_DARK,
    the [_disabled] variant COLOR_BACKGROUND_NORMAL, the [_focus]
    variant COLOR_SELECTION_LIGHT and the [_pressed] variant
    COLOR_SELECTION_NORMAL. *)
Theorem C10_state_colors (fname : string) (palette : Palette) :
  count "." fname = 1%nat ->
  exists name ext file_colors,
    split "." fname = [name; ext] /\
    _get_file_color_map fname palette = inr file_colors /\
    dict_get fname file_colors = Some (COLOR_FOREGROUND_DARK palette) /\
    dict_get (name +:+ "_disabled." +:+ ext) file_colors =
      Some (COLOR_BACKGROUND_NORMAL palette) /\
    dict_get (name +:+ "_focus." +:+ ext) file_colors =
      Some (COLOR_SELECTION_LIGHT palette) /\
    dict_get (name +:+ "_pressed." +:+ ext) file_colors =
      Some (COLOR_SELECTION_NORMAL palette).
Proof.
  intros H.
  destruct (file_color_map_ok palette fname H) as (name & ext & Hs & Hf & _ & _ & Hm).
  exists name, ext, (variant_entries palette name ext).
  split; [assumption |]. split; [assumption |]. subst fname.
  unfold variant_entries.
  repeat split;
    repeat (progress (simpl; rewrite ?String.eqb_refl, ?tail_eqb by discriminate));
    reflexivity.
Qed.

Lemma C10_state_colors_witness :
  exists name ext file_colors,
    split "." "icon.svg" = [name; ext] /\
    _get_file_color_map "icon.svg" scenario_palette = inr file_colors /\
    dict_get "icon.svg" file_colors = Some "#111111" /\
    dict_get (name +:+ "_disabled." +:+ ext) file_colors = Some "#222222" /\
    dict_get (name +:+ "_focus." +:+ ext) file_colors = Some "#333333" /\
    dict_get (name +:+ "_pressed." +:+ ext) file_colors = Some "#444444".
Proof. apply (C10_state_colors "icon.svg" scenario_palette). reflexivity. Defined.

(** ** Colorization *)

Section Colorize.

Lemma base_color_marker : count "#" "ff0000" = O.
Proof. reflexivity. Qed.

Lemma create_colored_svg_run (svg_path temp_svg_path color data : string)
  (w : world) :
  files w !! svg_path = Some data ->
  _create_colored_svg svg_path temp_svg_path color w
  = (inr tt,
     World (<[temp_svg_path := replace base_color color data]> (files w))
           (png_writes w)).
Proof.
  intros H. unfold _create_colored_svg, bind, read_file. now rewrite H.
Qed.

Lemma create_colored_svg_missing (svg_path temp_svg_path color : string)
  (w : world) :
  files w !! svg_path = None ->
  _create_colored_svg svg_path temp_svg_path color w = (inl FileNotFoundError, w).
Proof.
  intros H. unfold _create_colored_svg, bind, read_file. now rewrite H.
Qed.

Lemma colorize_gone (color src : string) :
  overlap_free base_color color = true ->
  contains base_color (replace base_color color src) = false.
Proof. apply (replace_go_gone "#" "ff0000"). Qed.

Lemma colorize_twice (color src : string) :
  overlap_free base_color color = true ->
  replace base_color color (replace base_color color src)
  = replace base_color color src.
Proof.
  intros H. apply (replace_go_absent "#" "ff0000"). now apply colorize_gone.
Qed.

(** The colors of the palette's notation are of this kind. *)
Lemma hash_color_overlap_free (color : string) :
  distinct_hash_color color = true -> overlap_free base_color color = true.
Proof.
  unfold distinct_hash_color, base_color. intros H.
  destruct color as [|c digits]; [discriminate |].
  destruct (ascii_dec c "#") as [-> | Hne].
  - apply andb_prop in H as [Hd Hi]. apply Nat.eqb_eq in Hd.
    unfold overlap_free. apply andb_true_intro. split.
    + reflexivity.
    + cbn [all_suffixes]. rewrite Hi. simpl andb.
      clear Hi. induction digits as [|a digits IH]; [reflexivity |].
      cbn [count] in Hd. destruct (Ascii.eqb a "#") eqn:E; [discriminate |].
      cbn [all_suffixes]. rewrite (IH Hd), andb_true_r.
      unfold incomparable. rewrite !prefix_cons, E, Ascii.eqb_sym, E.
      reflexivity.
  - exfalso. destruct c as [[] [] [] [] [] [] [] []];
      try discriminate H; now apply Hne.
Qed.

End Colorize.

(** C6. [_create_colored_svg] raises nothing on a readable template
    and writes the text in which every occurrence of the literal
    token [#ff0000] is replaced by the color and everything between
    the occurrences is kept; the comparison is by character, so other
    spellings of the token stay; a text without the token is written
    back unchanged. *)
Theorem C6_colorize_replaces_all (svg_path temp_svg_path color data : string)
  (w : world) :
  files w !! svg_path = Some data ->
  _create_colored_svg svg_path temp_svg_path color w
  = (inr tt,
     World (<[temp_svg_path := replace "#ff0000" color data]> (files w))
           (png_writes w)) /\
  (forall pieces,
     Forall (fun p => contains "#ff0000" p = false) pieces ->
     data = join "#ff0000" pieces ->
     replace "#ff0000" color data = join color pieces) /\
  (exists pieces,
     pieces <> [] /\
     Forall (fun p => contains "#ff0000" p = false) pieces /\
     data = join "#ff0000" pieces) /\
  (contains "#ff0000" data = false -> replace "#ff0000" color data = data) /\
  replace base_color color "fill:#FF0000;stroke:#Ff0000" = "fill:#FF0000;stroke:#Ff0000".
Proof.
  intros H. split; [now apply create_colored_svg_run |].
  split; [| split; [| split]].
  - intros pieces Hall ->. now apply (replace_join "#" "ff0000" base_color_marker).
  - apply (join_pieces "#" "ff0000" base_color_marker).
  - apply (replace_go_absent "#" "ff0000").
  - reflexivity.
Qed.

Lemma C6_colorize_replaces_all_witness :
  let data := "<path fill=#ff0000 stroke=#ff0000/>" in
  let w := World {[ "svg/icon.svg" := data ]} [] in
  files w !! "svg/icon.svg" = Some data /\
  _create_colored_svg "svg/icon.svg" "tmp/icon.svg" "#111111" w
  = (inr tt,
     World (<["tmp/icon.svg" := "<path fill=#111111 stroke=#111111/>"]> (files w))
           []) /\
  replace "#ff0000" "#111111" data
  = join "#111111" ["<path fill="; " stroke="; "/>"].
Proof.
  intros data w.
  assert (Hf : files w !! "svg/icon.svg" = Some data) by reflexivity.
  destruct (C6_colorize_replaces_all "svg/icon.svg" "tmp/icon.svg" "#111111"
              data w Hf) as (Hrun & Hall & _).
  split; [exact Hf |]. split; [exact Hrun |].
  apply Hall; [| reflexivity].
  repeat (apply Forall_cons; split; [reflexivity |]). apply Forall_nil. exact I.
Defined.

(** C7, as stated, fails: a color other than the token may contain
    it, and the second substitution then changes the text again. *)
Lemma C7_counterexample :
  ~ (forall src color : string,
       color <> base_color ->
       replace base_color color (replace base_color color src)
       = replace base_color color src).
Proof.
  intros H. specialize (H "fill:#ff0000" "#ff0000ff").
  vm_compute in H. discriminate H; discriminate.
Qed.

(** C7, amended. For a color that cannot overlap the token [#ff0000]
    (it is not empty, neither string occurs in the other, and no end of
    one is a beginning of the other; so every ['#'] followed by six
    hexadecimal digits other than the token itself), the colorized text
    no longer holds the token and a second colorization with the same
    color leaves it unchanged, as text and as the file written by
    [_create_colored_svg]. *)
Theorem C7_colorize_idempotent (src color : string) :
  overlap_free base_color color = true ->
  contains base_color (replace base_color color src) = false /\
  replace base_color color (replace base_color color src)
  = replace base_color color src /\
  forall (w : world) (svg_path temp1 temp2 : string),
    files w !! svg_path = Some src ->
    exists w1 w2,
      _create_colored_svg svg_path temp1 color w = (inr tt, w1) /\
      _create_colored_svg temp1 temp2 color w1 = (inr tt, w2) /\
      files w1 !! temp1 = Some (replace base_color color src) /\
      files w2 !! temp2 = Some (replace base_color color src).
Proof.
  intros H. split; [now apply colorize_gone |].
  split; [now apply colorize_twice |].
  intros w svg_path temp1 temp2 Hf.
  eexists _, _. split; [apply create_colored_svg_run; exact Hf |].
  split; [apply create_colored_svg_run; cbn [files]; apply lookup_insert_eq |].
  cbn [files]. rewrite !lookup_insert_eq. now rewrite colorize_twice.
Qed.

Lemma C7_colorize_idempotent_witness :
  overlap_free base_color "#19232d" = true /\
  replace base_color "#19232d" (replace base_color "#19232d" "fill:#ff0000")
  = replace base_color "#19232d" "fill:#ff0000".
Proof.
  split; [reflexivity |].
  apply (C7_colorize_idempotent "fill:#ff0000" "#19232d"). reflexivity.
Defined.

(** ** The manifest *)

Section Manifest.

Lemma format_qrc_file (fname : string) :
  format TEMPLATE_QRC_FILE "fname" fname = "    <file>rc/" +:+ fname +:+ "</file>".
Proof. reflexivity. Qed.

Lemma format_qrc_header (resource_prefix : string) :
  format TEMPLATE_QRC_HEADER "resource_prefix" resource_prefix
  = nl +:+ "<RCC warning=" +:+ dq
       +:+ "File created programmatically. All changes made in this file will be lost!"
       +:+ dq +:+ ">" +:+ nl
       +:+ "  <qresource prefix=" +:+ dq +:+ resource_prefix +:+ dq +:+ ">" +:+ nl.
Proof. reflexivity. Qed.

Lemma format_qrc_footer (style_prefix : string) :
  format TEMPLATE_QRC_FOOTER "style_prefix" style_prefix
  = nl +:+ "  </qresource>" +:+ nl
       +:+ "  <qresource prefix=" +:+ dq +:+ style_prefix +:+ dq +:+ ">" +:+ nl
       +:+ "      <file>style.qss</file>" +:+ nl
       +:+ "  </qresource>" +:+ nl
       +:+ "</RCC>" +:+ nl.
Proof. reflexivity. Qed.

Lemma sorted_Permutation (l : list string) : sorted l ≡ₚ l.
Proof. apply merge_sort_Permutation. Qed.

Lemma sorted_StronglySorted (l : list string) : StronglySorted String.le (sorted l).
Proof. apply StronglySorted_merge_sort; apply _. Qed.

End Manifest.

(** The lines joined by newlines and followed by one are the lines
    each ended by a newline. *)
Lemma join_lines (lines : list string) (rest : string) :
  lines <> [] ->
  join nl lines +:+ nl +:+ rest
  = foldr (fun line text => line +:+ nl +:+ text) rest lines.
Proof.
  induction lines as [|l [|l' lines] IH]; intros H; [contradiction | reflexivity |].
  change (join nl (l :: l' :: lines)) with (l +:+ nl +:+ join nl (l' :: lines)).
  change (foldr (fun line text => line +:+ nl +:+ text) rest (l :: l' :: lines))
    with (l +:+ nl
          +:+ foldr (fun line text => line +:+ nl +:+ text) rest (l' :: lines)).
  rewrite <- IH by discriminate. now rewrite !sapp_assoc.
Qed.

(** C8. The manifest written by [generate_qrc_file] opens with the
    header carrying [resource_prefix] and closes with the footer
    carrying [style_prefix] and its single entry for [style.qss].  In
    between, each file of the listing has its own line
    [    <file>rc/NAME</file>], ended by a newline, the names in
    ascending order; for an empty listing the header is followed by an
    empty line and the footer. *)
Theorem C8_manifest_layout (QRC_FILEPATH : string) (rc_listing : list string)
  (resource_prefix style_prefix : string) (w : world) :
  exists names content,
    generate_qrc_file QRC_FILEPATH rc_listing resource_prefix style_prefix w
    = (inr tt, World (<[QRC_FILEPATH := content]> (files w)) (png_writes w)) /\
    names ≡ₚ rc_listing /\
    StronglySorted String.le names /\
    let header :=
      nl +:+ "<RCC warning=" +:+ dq
         +:+ "File created programmatically. All changes made in this file will be lost!"
         +:+ dq +:+ ">" +:+ nl
         +:+ "  <qresource prefix=" +:+ dq +:+ resource_prefix +:+ dq +:+ ">" +:+ nl in
    let footer :=
      "  </qresource>" +:+ nl
         +:+ "  <qresource prefix=" +:+ dq +:+ style_prefix +:+ dq +:+ ">" +:+ nl
         +:+ "      <file>style.qss</file>" +:+ nl
         +:+ "  </qresource>" +:+ nl
         +:+ "</RCC>" +:+ nl in
    content =
      header
      +:+ match names with
          | [] => nl +:+ footer
          | _ :: _ =>
              foldr (fun fname text =>
                       "    <file>rc/" +:+ fname +:+ "</file>" +:+ nl +:+ text)
                    footer names
          end.
Proof.
  exists (sorted rc_listing). eexists. split; [reflexivity |].
  split; [apply sorted_Permutation |].
  split; [apply sorted_StronglySorted |].
  intros header footer.
  rewrite format_qrc_header, format_qrc_footer.
  rewrite (map_ext _ _ format_qrc_file).
  fold header. f_equal.
  change (nl +:+ "  </qresource>" +:+ nl
          +:+ "  <qresource prefix=" +:+ dq +:+ style_prefix +:+ dq +:+ ">" +:+ nl
          +:+ "      <file>style.qss</file>" +:+ nl
          +:+ "  </qresource>" +:+ nl +:+ "</RCC>" +:+ nl)
    with (nl +:+ footer).
  destruct (sorted rc_listing) as [|n names] eqn:E; [reflexivity |].
  rewrite join_lines by discriminate.
  generalize (n :: names). intros l.
  induction l as [|x l IH]; [reflexivity |].
  cbn [map foldr]. now rewrite IH, !sapp_assoc.
Qed.

Lemma C8_manifest_layout_witness :
  exists content,
    generate_qrc_file "style.qrc" ["b.png"; "a.png"] "qss_icons" "qdarkstyle"
      scenario_world
    = (inr tt, World (<["style.qrc" := content]> (files scenario_world)) []) /\
    content =
      nl +:+ "<RCC warning=" +:+ dq
         +:+ "File created programmatically. All changes made in this file will be lost!"
         +:+ dq +:+ ">" +:+ nl
         +:+ "  <qresource prefix=" +:+ dq +:+ "qss_icons" +:+ dq +:+ ">" +:+ nl
         +:+ "    <file>rc/a.png</file>" +:+ nl
         +:+ "    <file>rc/b.png</file>" +:+ nl
         +:+ "  </qresource>" +:+ nl
         +:+ "  <qresource prefix=" +:+ dq +:+ "qdarkstyle" +:+ dq +:+ ">" +:+ nl
         +:+ "      <file>style.qss</file>" +:+ nl
         +:+ "  </qresource>" +:+ nl
         +:+ "</RCC>" +:+ nl.
Proof.
  destruct (C8_manifest_layout "style.qrc" ["b.png"; "a.png"] "qss_icons"
              "qdarkstyle" scenario_world)
    as (names & content & Hrun & Hperm & Hsorted & Hcontent).
  assert (Hnames : names = ["a.png"; "b.png"]).
  { apply (StronglySorted_unique String.le); [exact Hsorted | |].
    - repeat (apply SSorted_cons; [| repeat (apply Forall_cons; split; [exact I |]);
                                     apply Forall_nil; exact I]).
      apply SSorted_nil.
    - rewrite Hperm. apply Permutation_swap. }
  exists content. split; [exact Hrun |]. rewrite Hcontent, Hnames. reflexivity.
Defined.

(** ** Reference extraction *)

Section Extraction.

Lemma take_app (m rest : string) : take (String.length m) (m +:+ rest) = m.
Proof.
  induction m as [|c m IH]; simpl; [now destruct rest | now rewrite IH].
Qed.

Lemma take_suffix (m rest : string) :
  take (String.length (m +:+ rest) - String.length rest) (m +:+ rest) = m.
Proof.
  rewrite slength_app.
  replace (String.length m + String.length rest - String.length rest)%nat
    with (String.length m) by lia.
  apply take_app.
Qed.

Lemma star_iter_suffix (step : string -> list string) :
  (forall s rest, rest ∈ step s -> exists m, s = m +:+ rest) ->
  forall fuel s rest, rest ∈ star_iter step fuel s -> exists m, s = m +:+ rest.
Proof.
  intros Hstep. induction fuel as [|n IH]; intros s rest H; simpl in H.
  - apply list_elem_of_singleton in H as ->. now exists "".
  - apply elem_of_app in H as [H | H].
    + apply list_elem_of_bind in H as (s' & H & Hs').
      destruct (Hstep _ _ Hs') as [m1 ->].
      destruct (decide _).
      * destruct (IH _ _ H) as [m2 ->].
        exists (m1 +:+ m2). now rewrite sapp_assoc.
      * apply list_elem_of_singleton in H as ->. now exists m1.
    + apply list_elem_of_singleton in H as ->. now exists "".
Qed.

(** What [ends] returns are suffixes of the input. *)
Lemma ends_suffix (r : regex) (s rest : string) :
  rest ∈ ends r s -> exists m, s = m +:+ rest.
Proof.
  revert s rest. induction r as [c | | | r1 IH1 r2 IH2 | r1 IH1 r2 IH2 | r IH];
    intros s rest H; simpl in H.
  - destruct s as [|c' s]; [now apply elem_of_nil in H |].
    destruct (Ascii.eqb c c'); [| now apply elem_of_nil in H].
    apply list_elem_of_singleton in H as ->. now exists (String c' "").
  - destruct s as [|c' s]; [now apply elem_of_nil in H |].
    destruct (Ascii.eqb c' "010"); [now apply elem_of_nil in H |].
    apply list_elem_of_singleton in H as ->. now exists (String c' "").
  - apply list_elem_of_singleton in H as ->. now exists "".
  - apply list_elem_of_bind in H as (s' & H & Hs').
    destruct (IH1 _ _ Hs') as [m1 ->]. destruct (IH2 _ _ H) as [m2 ->].
    exists (m1 +:+ m2). now rewrite sapp_assoc.
  - apply elem_of_app in H as [H | H]; eauto.
  - eapply star_iter_suffix; eauto.
Qed.

(** [search] returns the match that starts first: the line splits
    around it, the matcher's first choice at that position is this
    match, and the matcher finds nothing at any earlier position. *)
Lemma search_leftmost (r : regex) (line x : string) :
  search r line = Some x ->
  exists pre post,
    line = pre +:+ x +:+ post /\
    head (ends r (x +:+ post)) = Some post /\
    forall p1 p2, pre = p1 +:+ p2 -> p2 <> "" -> ends r (p2 +:+ x +:+ post) = [].
Proof.
  revert x. induction line as [|c line IH]; intros x H.
  - simpl in H. destruct (ends r "") as [|rest l] eqn:E; [discriminate |].
    injection H as <-.
    destruct (ends_suffix r "" rest) as [m Hm]; [rewrite E; left |].
    destruct m; [| discriminate]. simpl in Hm. subst rest.
    exists "", "". simpl. rewrite E. repeat split.
    intros [|] p2 Hp Hne; [simpl in Hp; now subst p2 | discriminate].
  - cbn [search] in H. destruct (ends r (String c line)) as [|rest l] eqn:E.
    + destruct (IH _ H) as (pre & post & -> & Hhd & Hearlier).
      exists (String c pre), post. repeat split; [assumption |].
      intros [|c1 p1] p2 Hp Hne.
      * simpl in Hp. subst p2. exact E.
      * simpl in Hp. injection Hp as _ Hpre. now apply (Hearlier p1 p2).
    + destruct (ends_suffix r (String c line) rest) as [m Hm]; [rewrite E; left |].
      assert (Hx : x = m).
      { injection H as <-.
        change (S (String.length line)) with (String.length (String c line)).
        rewrite Hm. apply take_suffix. }
      subst x. exists "", rest. simpl String.append at 1.
      rewrite <- Hm, E. repeat split.
      intros [|] p2 Hp Hne; [simpl in Hp; now subst p2 | discriminate].
Qed.

Lemma collect_links_omap (r : regex) (lines acc : list string) :
  collect_links r lines acc = acc ++ omap (search r) lines.
Proof.
  revert acc. induction lines as [|line lines IH]; intros acc; simpl.
  - now rewrite app_nil_r.
  - destruct (search r line) as [m|]; rewrite IH; [| reflexivity].
    now rewrite <- app_assoc.
Qed.

Lemma omap_length_le {A B} (f : A -> option B) (l : list A) :
  (length (omap f l) <= length l)%nat.
Proof. induction l as [|a l IH]; csimpl; [lia |]. destruct (f a); csimpl; lia. Qed.

Lemma list_of_set_NoDup (l : list string) : NoDup (list_of_set l).
Proof. unfold list_of_set. apply NoDup_elements. Qed.

Lemma elem_of_list_of_set (x : string) (l : list string) :
  x ∈ list_of_set l <-> x ∈ l.
Proof. unfold list_of_set. now rewrite elem_of_elements, elem_of_list_to_set. Qed.

Lemma get_rc_links_run (scss_path : string) (pattern : regex) (data : string)
  (w : world) :
  files w !! scss_path = Some data ->
  get_rc_links_from_scss scss_path pattern w
  = (inr (list_of_set (omap (search pattern) (split "010" data))), w).
Proof.
  intros H. unfold get_rc_links_from_scss, bind, read_file. rewrite H.
  now rewrite collect_links_omap.
Qed.

(** The default pattern is greedy: on a line with two references the
    first match runs from the first ['/'] to the last [.png]. *)
Lemma search_default_two_references :
  search default_pattern "a: url(/rc/a.png) url(/rc/b.png);"
  = Some "/rc/a.png) url(/rc/b.png".
Proof. reflexivity. Qed.

(** The star on bodies that can match the empty text: an iteration
    that consumes nothing ends the star, which then hands over to what
    follows; the other alternatives of the body are tried on
    backtracking. *)
Example search_star_empty_iteration :
  search (Star (Alt Eps (Chr "a"))) "a" = Some ""
  /\ search (Cat (Star (Alt Eps (Chr "a"))) (Chr "b")) "ab" = Some "ab"
  /\ search (Cat (Star (Alt Eps (Chr "a"))) (Chr "a")) "aa" = Some "a"
  /\ search (Star (Alt (Chr "a") Eps)) "aa" = Some "aa"
  /\ search (Cat (Star (Star (Chr "a"))) (Chr "b")) "aab" = Some "aab".
Proof. repeat split; reflexivity. Qed.

End Extraction.

(** ** The loops of [create_images] *)

Section Loops.

Lemma extends_refl (r : run) : extends r r [] 0 [].
Proof.
  unfold extends. rewrite app_nil_r. simpl.
  repeat split; try lia; auto.
Qed.

Lemma discard_all_app (xs ys l : list string) :
  discard_all (xs ++ ys) l = discard_all ys (discard_all xs l).
Proof. unfold discard_all. apply fold_left_app. Qed.

Lemma extends_trans (r1 r2 r3 : run) (p1 p2 : list string) (i1 i2 : Z)
  (d1 d2 : list string) :
  extends r1 r2 p1 i1 d1 -> extends r2 r3 p2 i2 d2 ->
  extends r1 r3 (p1 ++ p2) (i1 + i2) (d1 ++ d2).
Proof.
  intros (Ha & Hb & Hc & Hd & He) (Ha' & Hb' & Hc' & Hd' & He').
  unfold extends. rewrite Ha', Ha, Hb', Hb, Hc', Hc, Hd', Hd.
  rewrite discard_all_app, length_app, <- app_assoc.
  repeat split; try lia; auto.
Qed.

Lemma for_each_app {S X} (xs ys : list X) (body : X -> M S unit) (s : S) :
  for_each (xs ++ ys) body s
  = bind (for_each xs body) (fun _ => for_each ys body) s.
Proof.
  revert s. induction xs as [|x xs IH]; intros s; simpl; [reflexivity |].
  unfold bind. destruct (body x s) as [[e | []] s']; [reflexivity |].
  rewrite IH. reflexivity.
Qed.

(** A loop whose iterations all succeed on states that keep the
    files [needed]. *)
Lemma for_each_extends {X} (needed : list string) (body : X -> M run unit)
  (P : X -> list string) (I : X -> Z) (D : X -> list string) (xs : list X) :
  (forall x r, x ∈ xs -> (forall p, p ∈ needed -> present p r) ->
     exists r', body x r = (inr tt, r') /\ extends r r' (P x) (I x) (D x)) ->
  forall r, (forall p, p ∈ needed -> present p r) ->
    exists r', for_each xs body r = (inr tt, r') /\
               extends r r' (xs ≫= P) (foldr Z.add 0 (I <$> xs)) (xs ≫= D).
Proof.
  induction xs as [|x xs IH]; intros Hbody r Hr.
  - exists r. split; [reflexivity | apply extends_refl].
  - destruct (Hbody x r) as (r1 & Hx & E1); [left | exact Hr |].
    destruct (IH (fun y s Hy => Hbody y s (list_elem_of_further _ _ _ Hy)) r1)
      as (r2 & Hxs & E2).
    { intros p Hp. apply E1. now apply Hr. }
    exists r2. split.
    + simpl. unfold bind. now rewrite Hx.
    + csimpl. now apply extends_trans with r1.
Qed.

End Loops.

(** ** One template *)

Section Template.

Variables (base_svg_path rc_path temp_dir : string) (palette : Palette).

Lemma endswith_inv (suffix s : string) :
  endswith suffix s = true -> exists m, s = m +:+ suffix.
Proof.
  induction s as [|c s IH]; cbn [endswith]; intros H.
  - rewrite orb_false_r in H. apply String.eqb_eq in H as <-. now exists "".
  - apply orb_prop in H as [H | H].
    + apply String.eqb_eq in H as <-. now exists "".
    + destruct (IH H) as [m ->]. now exists (String c m).
Qed.

(** A listed SVG with a single ['.'] is its base name and [.svg]. *)
Lemma svg_fname_shape (f : string) :
  endswith ".svg" f = true -> count "." f = 1%nat ->
  exists name, f = name +:+ ".svg" /\ count "." name = O /\
               split "." f = [name; "svg"] /\ stem f = name.
Proof.
  intros He Hc. destruct (endswith_inv _ _ He) as [name ->].
  rewrite count_app in Hc. simpl in Hc.
  assert (Hn : count "." name = O) by lia.
  assert (Hs : split "." (name +:+ ".svg") = [name; "svg"]).
  { change (name +:+ ".svg") with (name +:+ String "." "svg").
    now rewrite split_cons. }
  exists name. unfold stem. rewrite Hs. now repeat split.
Qed.

Lemma replace_svg (ext x : string) :
  count "." x = O -> replace ".svg" ext (x +:+ ".svg") = x +:+ ext.
Proof.
  intros H. unfold replace.
  rewrite replace_go_clean by now apply no_marker_no_start.
  rewrite <- (sapp_nil_r ".svg") at 2. rewrite replace_go_occurrence.
  simpl replace_go. now rewrite sapp_nil_r.
Qed.

Lemma list_remove_exn (x : string) (l : list string) (e : exn) :
  list_remove x l = inl e -> e = ValueError.
Proof.
  induction l as [|y l IH]; simpl; [congruence |].
  destruct (String.eqb y x); [discriminate |].
  destruct (list_remove x l); [| discriminate].
  intros H. injection H as <-. now apply IH.
Qed.

Lemma variant_body_extends (height : Z) (ext svg_path k color : string) (r : run) :
  present svg_path r ->
  exists r',
    variant_body rc_path temp_dir height ext svg_path (k, color) r = (inr tt, r') /\
    extends r r' [path_join rc_path (replace ".svg" ext k)] 0
      (if Z.eqb height 32 then [rc_name rc_path (replace ".svg" ext k)] else []).
Proof.
  intros [data Hdata]. unfold variant_body, bind, in_world.
  rewrite (create_colored_svg_run _ _ _ _ _ Hdata).
  unfold convert_svg_to_png, modify. cbn [files png_writes run_world].
  rewrite lookup_insert_eq. cbn [files png_writes run_world num_png num_ignored rc_list].
  destruct (Z.eqb height 32).
  - unfold gets. cbn [rc_list].
    fold (rc_name rc_path (replace ".svg" ext k)).
    destruct (list_remove (rc_name rc_path (replace ".svg" ext k)) (rc_list r))
      as [e | l'] eqn:E.
    + rewrite (list_remove_exn _ _ _ E) in *. eexists. split; [reflexivity |].
      unfold extends, present, discard_all, discard.
      cbn [files png_writes run_world num_png num_ignored rc_list fold_left].
      rewrite E, map_app. repeat split; try (simpl; lia).
      intros p [v Hv]. destruct (decide (path_join temp_dir k = p)) as [<- | Hne].
      * rewrite lookup_insert_eq. eauto.
      * rewrite lookup_insert_ne by assumption. eauto.
    + eexists. split; [reflexivity |].
      unfold extends, present, discard_all, discard.
      cbn [files png_writes run_world num_png num_ignored rc_list fold_left].
      rewrite E, map_app. repeat split; try (simpl; lia).
      intros p [v Hv]. destruct (decide (path_join temp_dir k = p)) as [<- | Hne].
      * rewrite lookup_insert_eq. eauto.
      * rewrite lookup_insert_ne by assumption. eauto.
  - eexists. split; [reflexivity |].
    unfold extends, present, discard_all.
    cbn [files png_writes run_world num_png num_ignored rc_list fold_left].
    rewrite map_app. repeat split; try (simpl; lia).
    intros p [v Hv]. destruct (decide (path_join temp_dir k = p)) as [<- | Hne].
    + rewrite lookup_insert_eq. eauto.
    + rewrite lookup_insert_ne by assumption. eauto.
Qed.

Lemma template_body_blacklisted (height : Z) (ext f : string) (r : run) :
  blacklisted f = true ->
  template_body base_svg_path rc_path temp_dir palette height ext f r
  = (inr tt, Run (run_world r) (num_png r) (num_ignored r + 1) (rc_list r)).
Proof.
  intros H. unfold template_body. fold (stem f). fold (blacklisted f).
  now rewrite H.
Qed.

Lemma template_body_bad_name (height : Z) (ext f : string) (r : run) :
  blacklisted f = false -> count "." f <> 1%nat ->
  template_body base_svg_path rc_path temp_dir palette height ext f r
  = (inl ValueError, r).
Proof.
  intros H Hc. unfold template_body. fold (stem f). fold (blacklisted f).
  rewrite H. cbn [negb]. unfold bind, _get_file_color_map.
  assert (Hu : unpack2 (split "." f) = inl ValueError).
  { pose proof (split_length "." f) as Hl.
    destruct (split "." f) as [|a [|b [|c l]]]; simpl in *;
      try reflexivity; lia. }
  now rewrite Hu.
Qed.

Lemma png_fnames_processed (ext f name : string) :
  blacklisted f = false -> stem f = name ->
  png_fnames ext f =
    [name +:+ ext; name +:+ "_disabled" +:+ ext;
     name +:+ "_focus" +:+ ext; name +:+ "_pressed" +:+ ext].
Proof. intros H <-. unfold png_fnames. now rewrite H. Qed.

Lemma template_body_extends (height : Z) (ext f : string) (r : run) :
  blacklisted f = true \/
  (endswith ".svg" f = true /\ count "." f = 1%nat /\
   present (path_join base_svg_path f) r) ->
  exists r',
    template_body base_svg_path rc_path temp_dir palette height ext f r
      = (inr tt, r') /\
    extends r r' (map (path_join rc_path) (png_fnames ext f))
      (if blacklisted f then 1 else 0)
      (if Z.eqb height 32 then map (rc_name rc_path) (png_fnames ext f) else []).
Proof.
  destruct (blacklisted f) eqn:Hb.
  - intros _. eexists. split; [now apply template_body_blacklisted |].
    unfold png_fnames. rewrite Hb. destruct (Z.eqb height 32);
      unfold extends, discard_all; simpl; rewrite app_nil_r;
      repeat split; try lia; auto.
  - intros [H | (He & Hc & Hp)]; [discriminate |].
    destruct (svg_fname_shape f He Hc) as (name & Hf & Hn & Hs & Hst).
    unfold template_body. fold (stem f). fold (blacklisted f). rewrite Hb.
    cbn [negb]. unfold bind at 1.
    rewrite (file_color_map_split palette f name "svg" Hs)
      by (rewrite Hf; reflexivity).
    cbn [lift_exn ret].
    rewrite (png_fnames_processed ext f name Hb Hst).
    set (body := variant_body rc_path temp_dir height ext (path_join base_svg_path f)).
    destruct (for_each_extends [path_join base_svg_path f] body
                (fun kv => [path_join rc_path (replace ".svg" ext (fst kv))])
                (fun _ => 0)
                (fun kv => if Z.eqb height 32
                           then [rc_name rc_path (replace ".svg" ext (fst kv))]
                           else [])
                (variant_entries palette name "svg")) with (r := r)
      as (r' & Hrun & Hext).
    + intros [k color] s _ Hs'. apply variant_body_extends.
      apply Hs'. left.
    + intros p Hp'. apply list_elem_of_singleton in Hp' as ->. exact Hp.
    + exists r'. split; [exact Hrun |].
      assert (R : forall tail, count "." tail = O ->
                replace ".svg" ext (name +:+ tail +:+ ".svg") = name +:+ tail +:+ ext).
      { intros tail Ht. rewrite <- !sapp_assoc. apply replace_svg.
        rewrite count_app. lia. }
      unfold variant_entries in Hext. csimpl in Hext.
      change (replace_go ".svg" ext 0 (name +:+ ".svg"))
        with (replace ".svg" ext (name +:+ "" +:+ ".svg")) in Hext.
      change (replace_go ".svg" ext 0 (name +:+ "_disabled.svg"))
        with (replace ".svg" ext (name +:+ "_disabled" +:+ ".svg")) in Hext.
      change (replace_go ".svg" ext 0 (name +:+ "_focus.svg"))
        with (replace ".svg" ext (name +:+ "_focus" +:+ ".svg")) in Hext.
      change (replace_go ".svg" ext 0 (name +:+ "_pressed.svg"))
        with (replace ".svg" ext (name +:+ "_pressed" +:+ ".svg")) in Hext.
      rewrite !R in Hext by reflexivity.
      destruct (Z.eqb height 32); exact Hext.
Qed.

End Template.

(** ** A whole run *)

Section Run.

Variables (scss_path base_svg_path rc_path temp_dir : string).
Variable palette : Palette.

Lemma fmap_bind_list {A B C} (g : B -> C) (F : A -> list B) (xs : list A) :
  map g (xs ≫= F) = xs ≫= (fun x => map g (F x)).
Proof.
  induction xs as [|x xs IH]; csimpl; [reflexivity |].
  now rewrite map_app, IH.
Qed.

Lemma ignored_sum (xs : list string) :
  foldr Z.add 0 ((fun f => if blacklisted f then 1 else 0) <$> xs)
  = Z.of_nat (length (List.filter blacklisted xs)).
Proof.
  induction xs as [|x xs IH]; csimpl; [reflexivity |].
  rewrite IH. destruct (blacklisted x); simpl length; lia.
Qed.

Lemma templates_pass (height : Z) (ext : string) (svg_fnames : list string)
  (files0 : gmap string string) (r : run) :
  processable base_svg_path files0 svg_fnames ->
  (forall p, is_Some (files0 !! p) -> present p r) ->
  exists r',
    for_each svg_fnames
      (template_body base_svg_path rc_path temp_dir palette height ext) r
      = (inr tt, r') /\
    extends r r'
      (map (path_join rc_path) (pass_fnames ext svg_fnames))
      (Z.of_nat (length (List.filter blacklisted svg_fnames)))
      (if Z.eqb height 32
       then map (rc_name rc_path) (pass_fnames ext svg_fnames) else []) /\
    (forall p, is_Some (files0 !! p) -> present p r').
Proof.
  intros Hok Hr.
  destruct (for_each_extends
              (map (path_join base_svg_path)
                   (List.filter (fun f => negb (blacklisted f)) svg_fnames))
              (template_body base_svg_path rc_path temp_dir palette height ext)
              (fun f => map (path_join rc_path) (png_fnames ext f))
              (fun f => if blacklisted f then 1 else 0)
              (fun f => if Z.eqb height 32
                        then map (rc_name rc_path) (png_fnames ext f) else [])
              svg_fnames) with (r := r) as (r' & Hrun & Hext).
  - intros f s Hf Hs. apply template_body_extends.
    destruct (blacklisted f) eqn:Hb; [now left | right].
    destruct (Hok f Hf) as [He Hrest]. destruct (Hrest Hb) as [Hc _].
    repeat split; try assumption.
    apply Hs. apply list_elem_of_fmap. exists f. split; [reflexivity |].
    apply list_elem_of_In, filter_In. split; [now apply list_elem_of_In |].
    now rewrite Hb.
  - intros p Hp. apply list_elem_of_fmap in Hp as (f & -> & Hf).
    apply list_elem_of_In, filter_In in Hf as [Hf Hb].
    apply list_elem_of_In in Hf. apply negb_true_iff in Hb.
    apply Hr. destruct (Hok f Hf) as [_ Hrest]. now destruct (Hrest Hb).
  - exists r'. split; [exact Hrun |]. split.
    + rewrite ignored_sum in Hext. unfold pass_fnames.
      rewrite fmap_bind_list.
      destruct (Z.eqb height 32); [rewrite fmap_bind_list | ]; [exact Hext |].
      replace (svg_fnames ≫= (fun _ : string => [])) with (@nil string) in Hext;
        [exact Hext |].
      clear. induction svg_fnames as [|x xs IH]; csimpl; [reflexivity | exact IH].
    + intros p Hp. apply Hext. now apply Hr.
Qed.

Lemma sizes_loop (svg_fnames : list string) (files0 : gmap string string)
  (r : run) :
  processable base_svg_path files0 svg_fnames ->
  (forall p, is_Some (files0 !! p) -> present p r) ->
  exists r',
    for_each heights (fun '(height, ext) =>
      for_each svg_fnames
        (template_body base_svg_path rc_path temp_dir palette height ext)) r
      = (inr tt, r') /\
    extends r r'
      (map (path_join rc_path)
           (pass_fnames ".png" svg_fnames ++ pass_fnames "@2x.png" svg_fnames))
      (2 * Z.of_nat (length (List.filter blacklisted svg_fnames)))
      (map (rc_name rc_path) (pass_fnames ".png" svg_fnames)).
Proof.
  intros Hok Hr.
  destruct (templates_pass 32 ".png" svg_fnames files0 r Hok Hr)
    as (r1 & Hrun1 & Hext1 & Hr1).
  destruct (templates_pass 64 "@2x.png" svg_fnames files0 r1 Hok Hr1)
    as (r2 & Hrun2 & Hext2 & Hr2).
  exists r2. split.
  - unfold heights. cbn [for_each]. unfold bind at 1. rewrite Hrun1.
    unfold bind at 1. rewrite Hrun2. reflexivity.
  - pose proof (extends_trans _ _ _ _ _ _ _ _ _ Hext1 Hext2) as H.
    cbn [Z.eqb Pos.eqb] in H. rewrite app_nil_r, <- map_app in H.
    replace (2 * Z.of_nat (length (List.filter blacklisted svg_fnames)))
      with (Z.of_nat (length (List.filter blacklisted svg_fnames))
            + Z.of_nat (length (List.filter blacklisted svg_fnames))) by lia.
    exact H.
Qed.

Lemma all_png_fnames_passes (svg_listing : list string) :
  all_png_fnames svg_listing
  = pass_fnames ".png" (List.filter (endswith ".svg") svg_listing)
    ++ pass_fnames "@2x.png" (List.filter (endswith ".svg") svg_listing).
Proof. unfold all_png_fnames, heights. csimpl. now rewrite app_nil_r. Qed.

(** What a run does when every listed SVG is processable. *)
Lemma create_images_run (svg_listing : list string) (scss : string) (w : world) :
  files w !! scss_path = Some scss ->
  processable base_svg_path (files w) (List.filter (endswith ".svg") svg_listing) ->
  let svg_fnames := List.filter (endswith ".svg") svg_listing in
  let links := list_of_set (omap (search default_pattern) (split "010" scss)) in
  exists st w',
    create_images scss_path svg_listing temp_dir base_svg_path rc_path palette w
      = (inr st, w') /\
    map png_path (png_writes w')
      = map png_path (png_writes w)
        ++ map (path_join rc_path) (all_png_fnames svg_listing) /\
    stat_svg st = Z.of_nat (length svg_fnames) /\
    stat_ignored st = 2 * Z.of_nat (length (List.filter blacklisted svg_fnames)) /\
    stat_png st = Z.of_nat (length (all_png_fnames svg_listing)) /\
    stat_rc_links st = Z.of_nat (length links) /\
    stat_rc_unmatched st
      = discard_all (map (rc_name rc_path) (pass_fnames ".png" svg_fnames)) links.
Proof.
  intros Hscss Hok svg_fnames links.
  destruct (sizes_loop svg_fnames (files w) (Run w 0 0 links) Hok)
    as (r' & Hrun & (Ha & Hb & Hc & Hd & _)); [intros p Hp; exact Hp |].
  unfold create_images. unfold bind at 1.
  rewrite (get_rc_links_run _ _ _ _ Hscss).
  fold svg_fnames. fold links. rewrite Hrun.
  eexists _, _. split; [reflexivity |].
  cbn [stat_svg stat_ignored stat_png stat_rc_links stat_rc_unmatched].
  cbn [run_world num_png num_ignored rc_list] in *.
  rewrite all_png_fnames_passes. fold svg_fnames.
  rewrite Ha, Hb, Hc, Hd, length_map. repeat split; lia.
Qed.

End Run.

(** ** Names of the raster files *)

Section Names.

Lemma srev_app (a b : string) : srev (a +:+ b) = srev b +:+ srev a.
Proof.
  induction a as [|c a IH]; simpl; [now rewrite sapp_nil_r |].
  now rewrite IH, sapp_assoc.
Qed.

Lemma srev_involutive (a : string) : srev (srev a) = a.
Proof.
  induction a as [|c a IH]; simpl; [reflexivity |].
  now rewrite srev_app, IH.
Qed.

Lemma rev_prefix_eq (n1 n2 d : string) :
  srev n1 = d +:+ srev n2 -> n1 = n2 +:+ srev d.
Proof.
  intros H. apply (f_equal srev) in H.
  now rewrite srev_app, !srev_involutive in H.
Qed.

Lemma srev_inj (n1 n2 : string) : srev n1 = srev n2 -> n1 = n2.
Proof. intros H. apply (rev_prefix_eq n1 n2 "") in H. now rewrite sapp_nil_r in H. Qed.

Lemma tail_compare (n1 n2 c1 c2 : string) :
  n1 +:+ c1 = n2 +:+ c2 -> srev c1 +:+ srev n1 = srev c2 +:+ srev n2.
Proof. intros H. apply (f_equal srev) in H. now rewrite !srev_app in H. Qed.

(** Two output names are equal only for the same base name, state and
    size, or when one base name is the other with a clash extension. *)
Lemma name_clash (n1 n2 t1 t2 e1 e2 : string) :
  t1 ∈ variant_tails -> t2 ∈ variant_tails ->
  e1 ∈ [".png"; "@2x.png"] -> e2 ∈ [".png"; "@2x.png"] ->
  n1 +:+ t1 +:+ e1 = n2 +:+ t2 +:+ e2 ->
  (n1 = n2 /\ t1 = t2 /\ e1 = e2) \/
  (exists e, e ∈ clash_extensions /\ (n1 = n2 +:+ e \/ n2 = n1 +:+ e)).
Proof.
  unfold variant_tails, clash_extensions.
  rewrite !elem_of_cons, !elem_of_nil.
  intros Ht1 Ht2 He1 He2 H.
  repeat match goal with
         | H : _ \/ _ |- _ => destruct H as [H | H]
         | H : False |- _ => destruct H
         end; subst; apply tail_compare in H; simpl in H;
    try discriminate H;
    try (apply srev_inj in H; subst; left; repeat split; reflexivity);
    injection H as H;
    try (apply srev_inj in H; subst; left; repeat split; reflexivity);
    right;
    first
      [ match type of H with
        | srev n1 = ?d =>
            let d' := eval pattern (srev n2) in d in
            match d' with
            | ?F _ => apply (rev_prefix_eq n1 n2 (F "")) in H
            end
        end;
        simpl in H; eexists; split; [| left; exact H];
        rewrite !elem_of_cons; tauto
      | symmetry in H;
        match type of H with
        | srev n2 = ?d =>
            let d' := eval pattern (srev n1) in d in
            match d' with
            | ?F _ => apply (rev_prefix_eq n2 n1 (F "")) in H
            end
        end;
        simpl in H; eexists; split; [| right; exact H];
        rewrite !elem_of_cons; tauto ].
Qed.

End Names.

(** ** Reconciliation *)

Section Reconcile.

Lemma list_remove_absent (x : string) (l : list string) :
  (x ∉ l) -> list_remove x l = inl ValueError.
Proof.
  induction l as [|y l IH]; [reflexivity |].
  rewrite not_elem_of_cons. intros [Hne Hl]. simpl.
  destruct (String.eqb_spec y x) as [-> | _]; [contradiction |].
  now rewrite IH.
Qed.

Lemma list_remove_present (x : string) (l : list string) :
  x ∈ l ->
  exists l1 l2, l = l1 ++ x :: l2 /\ (x ∉ l1) /\ list_remove x l = inr (l1 ++ l2).
Proof.
  induction l as [|y l IH]; intros H; [now apply elem_of_nil in H |].
  simpl. destruct (String.eqb_spec y x) as [-> | Hne].
  - exists [], l. repeat split. apply not_elem_of_nil.
  - apply elem_of_cons in H as [-> | H]; [contradiction |].
    destruct (IH H) as (l1 & l2 & -> & Hl1 & ->).
    exists (y :: l1), l2. repeat split.
    rewrite not_elem_of_cons. split; [congruence | assumption].
Qed.

(** Removing an absent path leaves the list as it is. *)
Lemma discard_absent (x : string) (l : list string) :
  (x ∉ l) -> discard x l = l.
Proof. intros H. unfold discard. now rewrite list_remove_absent. Qed.

Lemma discard_present (x : string) (l : list string) :
  x ∈ l -> exists l1 l2, l = l1 ++ x :: l2 /\ (x ∉ l1) /\ discard x l = l1 ++ l2.
Proof.
  intros H. destruct (list_remove_present x l H) as (l1 & l2 & Hl & H1 & Hr).
  exists l1, l2. unfold discard. now rewrite Hr.
Qed.

Lemma discard_NoDup (x : string) (l : list string) :
  NoDup l ->
  NoDup (discard x l) /\ forall y, y ∈ discard x l <-> y ∈ l /\ y <> x.
Proof.
  intros Hl. destruct (decide (x ∈ l)) as [Hin | Hout].
  - destruct (discard_present x l Hin) as (l1 & l2 & -> & H1 & ->).
    apply NoDup_app in Hl as (Hl1 & Hdis & Hl2).
    apply NoDup_cons in Hl2 as [Hx Hl2]. split.
    + apply NoDup_app. repeat split; try assumption.
      intros z Hz Hz'. apply (Hdis z Hz). now right.
    + intros y. rewrite !elem_of_app, elem_of_cons. split.
      * intros [Hy | Hy]; (split; [tauto |]); intros ->; contradiction.
      * intros [[Hy | [-> | Hy]] Hne]; tauto.
  - rewrite discard_absent by assumption. split; [assumption |].
    intros y. split; [| tauto]. intros Hy. split; [assumption |].
    intros ->. contradiction.
Qed.

(** What is left are the references no produced file accounts for. *)
Lemma discard_all_NoDup (xs l : list string) :
  NoDup l ->
  NoDup (discard_all xs l) /\
  forall y, y ∈ discard_all xs l <-> y ∈ l /\ y ∉ xs.
Proof.
  revert l. induction xs as [|x xs IH]; intros l Hl.
  - split; [assumption |]. intros y. split; [| tauto].
    intros Hy. split; [assumption | apply not_elem_of_nil].
  - destruct (discard_NoDup x l Hl) as [Hd Hmem].
    destruct (IH _ Hd) as [Hd' Hmem'].
    change (discard_all (x :: xs) l) with (discard_all xs (discard x l)).
    split; [assumption |]. intros y.
    rewrite Hmem', Hmem, not_elem_of_cons. tauto.
Qed.

Lemma split_no_sep (sep : ascii) (s p : string) :
  p ∈ split sep s -> count sep p = O.
Proof.
  revert p. induction s as [|c s IH]; intros p H; simpl in H.
  - apply list_elem_of_singleton in H as ->. reflexivity.
  - destruct (Ascii.eqb c sep) eqn:E.
    + apply elem_of_cons in H as [-> | H]; [reflexivity | now apply IH].
    + destruct (split sep s) as [|w ws].
      * apply list_elem_of_singleton in H as ->. simpl. now rewrite E.
      * apply elem_of_cons in H as [-> | H].
        -- simpl. rewrite E. apply IH. left.
        -- apply IH. now right.
Qed.

Lemma split_nonempty (sep : ascii) (s : string) : split sep s <> [].
Proof.
  pose proof (split_length sep s) as H. destruct (split sep s); [discriminate H | discriminate].
Qed.

Lemma last_elem_of (l : list string) (d : string) : l <> [] -> List.last l d ∈ l.
Proof.
  induction l as [|x [|y l] IH]; intros H; [contradiction | left |].
  right. apply IH. discriminate.
Qed.

Lemma basename_no_sep (p : string) : count "/" (basename p) = O.
Proof.
  apply split_no_sep with (s := p). apply last_elem_of, split_nonempty.
Qed.

Lemma basename_plain (f : string) : count "/" f = O -> basename f = f.
Proof. intros H. unfold basename. now rewrite split_nosep. Qed.

Lemma prefix_sep_false (c : ascii) (f : string) :
  count c f = O -> String.prefix (String c "") f = false.
Proof.
  destruct f as [|a f]; [reflexivity |]. cbn [count].
  destruct (Ascii.eqb a c) eqn:E; [discriminate |]. intros _.
  now rewrite prefix_cons, Ascii.eqb_sym, E.
Qed.

Lemma endswith_sep_false (c : ascii) (b : string) :
  count c b = O -> endswith (String c "") b = false.
Proof.
  intros H. destruct (endswith (String c "") b) eqn:E; [| reflexivity].
  destruct (endswith_inv _ _ E) as [m ->].
  rewrite count_app in H. simpl in H. rewrite Ascii.eqb_refl in H. lia.
Qed.

(** The reference path of a plain file name under a directory that
    has a base name. *)
Lemma rc_name_canonical (rc_path f : string) :
  basename rc_path <> "" -> count "/" f = O ->
  rc_name rc_path f = "/" +:+ basename rc_path +:+ "/" +:+ f.
Proof.
  intros Hb Hf. unfold rc_name, path_join.
  rewrite (basename_plain f Hf), (prefix_sep_false "/" f Hf).
  apply String.eqb_neq in Hb. rewrite Hb.
  now rewrite (endswith_sep_false "/" _ (basename_no_sep rc_path)).
Qed.

(** Under a directory path that ends in ['/'] the base name is empty
    and the reference path is the file name after one ['/']. *)
Lemma rc_name_no_base (rc_path f : string) :
  basename rc_path = "" -> count "/" f = O -> rc_name rc_path f = "/" +:+ f.
Proof.
  intros Hb Hf. unfold rc_name, path_join.
  now rewrite (basename_plain f Hf), (prefix_sep_false "/" f Hf), Hb.
Qed.

Lemma stem_prefix (f : string) : exists rest, f = stem f +:+ rest.
Proof.
  unfold stem. induction f as [|c f IH]; [now exists "" |]. simpl.
  destruct (Ascii.eqb c "."); [now exists (String c f) |].
  destruct IH as [rest Hrest].
  destruct (split "." f) as [|w ws]; [now exists f |].
  exists rest. simpl in *. now rewrite <- Hrest.
Qed.

Lemma count_stem (c : ascii) (f : string) : count c f = O -> count c (stem f) = O.
Proof.
  intros H. destruct (stem_prefix f) as [rest Hf]. rewrite Hf, count_app in H. lia.
Qed.

Lemma elem_of_pass_fnames (ext y : string) (xs : list string) :
  y ∈ pass_fnames ext xs <->
  exists f tail, f ∈ xs /\ blacklisted f = false /\ tail ∈ variant_tails /\
                 y = stem f +:+ tail +:+ ext.
Proof.
  unfold pass_fnames. rewrite list_elem_of_bind. unfold png_fnames. split.
  - intros (f & Hy & Hf). destruct (blacklisted f) eqn:Hb;
      [now apply elem_of_nil in Hy |].
    apply list_elem_of_fmap in Hy as (tail & -> & Ht). now exists f, tail.
  - intros (f & tail & Hf & Hb & Ht & ->). exists f. split; [| assumption].
    rewrite Hb. apply list_elem_of_fmap. now exists tail.
Qed.

Lemma pass_fnames_plain (ext y : string) (xs : list string) :
  ext ∈ [".png"; "@2x.png"] ->
  (forall f, f ∈ xs -> count "/" f = O) ->
  y ∈ pass_fnames ext xs -> count "/" y = O.
Proof.
  intros He Hxs Hy. apply elem_of_pass_fnames in Hy as (f & tail & Hf & _ & Ht & ->).
  rewrite !count_app, (count_stem "/" f (Hxs f Hf)).
  unfold variant_tails in Ht.
  rewrite !elem_of_cons in Ht. rewrite !elem_of_cons in He.
  repeat match goal with H : _ \/ _ |- _ => destruct H as [H | H] end;
    try (now apply elem_of_nil in Ht); try (now apply elem_of_nil in He);
    subst; reflexivity.
Qed.

End Reconcile.

(** ** Distinct output names *)

Section Distinct.

Variable base_svg_path : string.

Lemma elem_of_filter_list (p : string -> bool) (x : string) (l : list string) :
  x ∈ List.filter p l <-> x ∈ l /\ p x = true.
Proof. now rewrite !list_elem_of_In, filter_In. Qed.

Lemma NoDup_filter_list (p : string -> bool) (l : list string) :
  NoDup l -> NoDup (List.filter p l).
Proof. rewrite !NoDup_ListNoDup. apply List.NoDup_filter. Qed.

Lemma elem_of_processed (f : string) (svg_listing : list string) :
  f ∈ processed svg_listing <->
  f ∈ svg_listing /\ endswith ".svg" f = true /\ blacklisted f = false.
Proof.
  unfold processed. rewrite !elem_of_filter_list, negb_true_iff. tauto.
Qed.

Lemma sizes_elem (e : string) : e ∈ [".png"; "@2x.png"] <-> e = ".png" \/ e = "@2x.png".
Proof. rewrite !elem_of_cons, elem_of_nil. tauto.
Qed.

(** Equal output names come from the same template, state and size. *)
Lemma same_output (files0 : gmap string string) (svg_listing : list string)
  (f1 f2 t1 t2 e1 e2 : string) :
  processable base_svg_path files0 (List.filter (endswith ".svg") svg_listing) ->
  clash_free (processed svg_listing) ->
  f1 ∈ processed svg_listing -> f2 ∈ processed svg_listing ->
  t1 ∈ variant_tails -> t2 ∈ variant_tails ->
  e1 ∈ [".png"; "@2x.png"] -> e2 ∈ [".png"; "@2x.png"] ->
  stem f1 +:+ t1 +:+ e1 = stem f2 +:+ t2 +:+ e2 ->
  f1 = f2 /\ t1 = t2 /\ e1 = e2.
Proof.
  intros Hok Hcf Hf1 Hf2 Ht1 Ht2 He1 He2 H.
  destruct (name_clash _ _ _ _ _ _ Ht1 Ht2 He1 He2 H)
    as [(Hn & Ht & He) | (e & He & [Hn | Hn])].
  - split; [| now split].
    pose proof Hf1 as Hp1. pose proof Hf2 as Hp2.
    apply elem_of_processed in Hp1 as (Hl1 & Hs1 & Hb1).
    apply elem_of_processed in Hp2 as (Hl2 & Hs2 & Hb2).
    destruct (Hok f1) as [_ Hc1]; [now apply elem_of_filter_list |].
    destruct (Hok f2) as [_ Hc2]; [now apply elem_of_filter_list |].
    destruct (Hc1 Hb1) as [Hc1' _]. destruct (Hc2 Hb2) as [Hc2' _].
    destruct (svg_fname_shape f1 Hs1 Hc1') as (n1 & Hf1' & _ & _ & Hst1).
    destruct (svg_fname_shape f2 Hs2 Hc2') as (n2 & Hf2' & _ & _ & Hst2).
    congruence.
  - exfalso. exact (Hcf f1 f2 e Hf1 Hf2 He Hn).
  - exfalso. exact (Hcf f2 f1 e Hf2 Hf1 He Hn).
Qed.

Lemma variant_tails_NoDup : NoDup variant_tails.
Proof.
  unfold variant_tails. NoDup_strings ltac:(fun H => discriminate H).
Qed.

Lemma pass_fnames_NoDup (files0 : gmap string string) (svg_listing : list string)
  (ext : string) :
  NoDup svg_listing ->
  processable base_svg_path files0 (List.filter (endswith ".svg") svg_listing) ->
  clash_free (processed svg_listing) ->
  ext ∈ [".png"; "@2x.png"] ->
  NoDup (pass_fnames ext (List.filter (endswith ".svg") svg_listing)).
Proof.
  intros Hnd Hok Hcf He. unfold pass_fnames. apply NoDup_bind.
  - intros f1 f2 y Hf1 Hf2 Hy1 Hy2. unfold png_fnames in Hy1, Hy2.
    destruct (blacklisted f1) eqn:Hb1; [now apply elem_of_nil in Hy1 |].
    destruct (blacklisted f2) eqn:Hb2; [now apply elem_of_nil in Hy2 |].
    apply list_elem_of_fmap in Hy1 as (t1 & -> & Ht1).
    apply list_elem_of_fmap in Hy2 as (t2 & Hy & Ht2).
    apply elem_of_filter_list in Hf1 as [Hl1 Hs1].
    apply elem_of_filter_list in Hf2 as [Hl2 Hs2].
    eapply (same_output files0 svg_listing f1 f2 t1 t2 ext ext); eauto;
      now apply elem_of_processed.
  - intros f Hf. unfold png_fnames.
    destruct (blacklisted f) eqn:Hb; [apply NoDup_nil; exact I |].
    apply elem_of_filter_list in Hf as [Hl Hs].
    apply (NoDup_fmap_2_strong _ variant_tails); [| apply variant_tails_NoDup].
    intros t1 t2 Ht1 Ht2 Heq.
    eapply (same_output files0 svg_listing f f t1 t2 ext ext); eauto;
      now apply elem_of_processed.
  - now apply NoDup_filter_list.
Qed.

Lemma all_png_fnames_NoDup (files0 : gmap string string)
  (svg_listing : list string) :
  NoDup svg_listing ->
  processable base_svg_path files0 (List.filter (endswith ".svg") svg_listing) ->
  clash_free (processed svg_listing) ->
  NoDup (all_png_fnames svg_listing).
Proof.
  intros Hnd Hok Hcf. rewrite all_png_fnames_passes. apply NoDup_app.
  split; [| split].
  - eapply pass_fnames_NoDup; eauto. apply sizes_elem. now left.
  - intros y Hy1 Hy2.
    apply elem_of_pass_fnames in Hy1 as (f1 & t1 & Hf1 & Hb1 & Ht1 & ->).
    apply elem_of_pass_fnames in Hy2 as (f2 & t2 & Hf2 & Hb2 & Ht2 & Heq).
    apply elem_of_filter_list in Hf1 as [Hl1 Hs1].
    apply elem_of_filter_list in Hf2 as [Hl2 Hs2].
    destruct (same_output files0 svg_listing f1 f2 t1 t2 ".png" "@2x.png")
      as (_ & _ & Habs); eauto;
      try (now apply elem_of_processed); try (apply sizes_elem; tauto).
    discriminate Habs.
  - eapply pass_fnames_NoDup; eauto. apply sizes_elem. now right.
Qed.

Lemma all_png_fnames_plain (svg_listing : list string) (y : string) :
  (forall f, f ∈ svg_listing -> count "/" f = O) ->
  y ∈ all_png_fnames svg_listing -> count "/" y = O.
Proof.
  intros Hl. rewrite all_png_fnames_passes, elem_of_app.
  intros [Hy | Hy]; eapply pass_fnames_plain; try exact Hy;
    try (apply sizes_elem; tauto);
    intros f Hf; apply elem_of_filter_list in Hf as [Hf _]; now apply Hl.
Qed.

Lemma path_join_inj (rc_path x y : string) :
  count "/" x = O -> count "/" y = O ->
  path_join rc_path x = path_join rc_path y -> x = y.
Proof.
  intros Hx Hy. unfold path_join.
  rewrite (prefix_sep_false "/" x Hx), (prefix_sep_false "/" y Hy).
  destruct (String.eqb rc_path "" || endswith "/" rc_path); intros H.
  - now apply String.app_inj in H.
  - apply String.app_inj in H. now injection H.
Qed.

End Distinct.

(** ** The claims about [create_images] *)

(** C2, as stated, fails: a listed SVG whose name has two dots makes
    the whole run raise [ValueError]; the template listed after it,
    which alone gives eight raster files, is never processed. *)
Lemma C2_counterexample :
  (exists w',
     create_images "qss/_styles.scss" ["a.b.svg"; "icon.svg"] "tmp" "svg" "rc"
       scenario_palette scenario_world = (inl ValueError, w') /\
     png_writes w' = []) /\
  (exists st w',
     create_images "qss/_styles.scss" ["icon.svg"] "tmp" "svg" "rc"
       scenario_palette scenario_world = (inr st, w') /\
     length (png_writes w') = 8%nat).
Proof.
  split.
  - eexists. split; [vm_compute; reflexivity | reflexivity].
  - eexists _, _. split; [vm_compute; reflexivity | reflexivity].
Qed.

(** C2, amended. A listed SVG that is not blacklisted and whose name
    does not have exactly one ['.'] makes [create_images] raise
    [ValueError] during the first size pass: the raster files written
    are those of the templates listed before it, at the base size only;
    no template listed after it and no second size is processed. *)
Theorem C2_bad_name_aborts_run (scss_path temp_dir base_svg_path rc_path : string)
  (palette : Palette) (pre post : list string) (bad scss : string) (w : world) :
  files w !! scss_path = Some scss ->
  processable base_svg_path (files w) (List.filter (endswith ".svg") pre) ->
  endswith ".svg" bad = true ->
  blacklisted bad = false ->
  count "." bad <> 1%nat ->
  exists w',
    create_images scss_path (pre ++ bad :: post) temp_dir base_svg_path rc_path
      palette w = (inl ValueError, w') /\
    map png_path (png_writes w')
    = map png_path (png_writes w)
      ++ map (path_join rc_path)
             (pass_fnames ".png" (List.filter (endswith ".svg") pre)).
Proof.
  intros Hscss Hok Hsvg Hb Hc.
  set (links := list_of_set (omap (search default_pattern) (split "010" scss))).
  destruct (templates_pass base_svg_path rc_path temp_dir palette 32 ".png"
              (List.filter (endswith ".svg") pre) (files w) (Run w 0 0 links) Hok)
    as (r1 & Hrun & (Ha & _) & _); [intros p Hp; exact Hp |].
  exists (run_world r1). split; [| exact Ha].
  unfold create_images. unfold bind at 1.
  rewrite (get_rc_links_run _ _ _ _ Hscss). fold links.
  rewrite List.filter_app. cbn [List.filter]. rewrite Hsvg.
  unfold heights. cbn [for_each]. unfold bind at 1.
  rewrite for_each_app. unfold bind at 1. rewrite Hrun.
  cbn [for_each]. unfold bind at 1.
  now rewrite (template_body_bad_name _ _ _ _ _ _ _ _ Hb Hc).
Qed.

Lemma C2_bad_name_aborts_run_witness :
  exists w',
    create_images "qss/_styles.scss" (["icon.svg"] ++ "a.b.svg" :: ["icon_disabled.svg"])
      "tmp" "svg" "rc" scenario_palette scenario_world = (inl ValueError, w') /\
    map png_path (png_writes w')
    = ["rc/icon.png"; "rc/icon_disabled.png"; "rc/icon_focus.png"; "rc/icon_pressed.png"].
Proof.
  apply (C2_bad_name_aborts_run "qss/_styles.scss" "tmp" "svg" "rc" scenario_palette
           ["icon.svg"] ["icon_disabled.svg"] "a.b.svg"
           ("background: url(/rc/icon.png);" +:+ nl
            +:+ "other: url(/rc/icon_hover.png);") scenario_world).
  - reflexivity.
  - intros f Hf. apply list_elem_of_singleton in Hf as ->.
    split; [reflexivity |]. intros _. split; [reflexivity |].
    exists "<path fill=#ff0000/>". reflexivity.
  - reflexivity.
  - reflexivity.
  - vm_compute. lia.
Defined.

(** C3, on the code. A listing that holds one blacklisted SVG gives no
    raster file and leaves the produced counter at 0, but the skipped
    counter ends at 2, not 1: it is incremented in each size pass. *)
Theorem C3_blacklisted_counted_per_size
  (scss_path temp_dir base_svg_path rc_path : string) (palette : Palette)
  (fname scss : string) (w : world) :
  files w !! scss_path = Some scss ->
  endswith ".svg" fname = true ->
  blacklisted fname = true ->
  exists st,
    create_images scss_path [fname] temp_dir base_svg_path rc_path palette w
      = (inr st, w) /\
    stat_svg st = 1 /\ stat_png st = 0 /\ stat_ignored st = 2.
Proof.
  intros Hscss Hsvg Hb. unfold create_images. unfold bind at 1.
  rewrite (get_rc_links_run _ _ _ _ Hscss).
  cbn [List.filter]. rewrite Hsvg. unfold heights. cbn [for_each].
  unfold bind. rewrite !template_body_blacklisted by exact Hb.
  cbn [ret run_world num_png num_ignored rc_list].
  rewrite !template_body_blacklisted by exact Hb.
  destruct w. eexists. split; [reflexivity |]. now repeat split.
Qed.

Lemma C3_blacklisted_counted_per_size_witness :
  exists st,
    create_images "qss/_styles.scss" ["base_palette.svg"] "tmp" "svg" "rc"
      scenario_palette scenario_world = (inr st, scenario_world) /\
    stat_svg st = 1 /\ stat_png st = 0 /\ stat_ignored st = 2.
Proof.
  apply (C3_blacklisted_counted_per_size "qss/_styles.scss" "tmp" "svg" "rc"
           scenario_palette "base_palette.svg"
           ("background: url(/rc/icon.png);" +:+ nl
            +:+ "other: url(/rc/icon_hover.png);") scenario_world);
    reflexivity.
Defined.

(** C5, as stated, fails: for an output directory written with a
    trailing ['/'] the base name is empty, the path discarded for
    [icon.png] is [/icon.png], and the stylesheet's references
    [/rc/icon.png] and [//icon.png] both stay unmatched although
    [icon.png] was produced. *)
Lemma C5_counterexample :
  let w := World (<["qss/_styles.scss" :=
                      "a: url(/rc/icon.png);" +:+ nl +:+ "b: url(//icon.png);"]>
                    (files scenario_world)) [] in
  basename "out/rc/" = "" /\
  rc_name "out/rc/" "icon.png" = "/icon.png" /\
  exists st w',
    create_images "qss/_styles.scss" ["icon.svg"] "tmp" "svg" "out/rc/"
      scenario_palette w = (inr st, w') /\
    "out/rc/icon.png" ∈ map png_path (png_writes w') /\
    "/rc/icon.png" ∈ stat_rc_unmatched st /\
    "//icon.png" ∈ stat_rc_unmatched st.
Proof.
  split; [reflexivity |]. split; [reflexivity |].
  eexists _, _. split; [vm_compute; reflexivity |].
  cbn [png_writes map png_path stat_rc_unmatched].
  rewrite !elem_of_cons. tauto.
Qed.

(** C5, amended. For every produced base-size file name the run
    discards its reference path, [/] followed by the base name of the
    output directory joined with the file name, from the list of
    extracted references; discarding a path that is not in the list
    changes nothing and raises nothing.  The run ends normally whatever
    the stylesheet refers to, and reports as unmatched exactly the
    extracted references that no produced base-size file accounts
    for.  For plain listed names the reference path reads
    [/BASENAME/FILENAME] when the output directory has a base name, and
    [/FILENAME] when its path ends in ['/']. *)
Theorem C5_reconciliation (scss_path temp_dir base_svg_path rc_path : string)
  (palette : Palette) (svg_listing : list string) (scss : string) (w : world) :
  files w !! scss_path = Some scss ->
  processable base_svg_path (files w) (List.filter (endswith ".svg") svg_listing) ->
  let links := list_of_set (omap (search default_pattern) (split "010" scss)) in
  let produced := pass_fnames ".png" (List.filter (endswith ".svg") svg_listing) in
  (forall x l, (x ∉ l) -> discard x l = l) /\
  (exists st w',
     create_images scss_path svg_listing temp_dir base_svg_path rc_path palette w
       = (inr st, w') /\
     stat_rc_links st = Z.of_nat (length links) /\
     stat_rc_unmatched st = discard_all (map (rc_name rc_path) produced) links /\
     (forall x, x ∈ stat_rc_unmatched st <->
                x ∈ links /\ (x ∉ map (rc_name rc_path) produced))) /\
  (basename rc_path <> "" ->
   (forall f, f ∈ svg_listing -> count "/" f = O) ->
   forall f, f ∈ produced ->
     rc_name rc_path f = "/" +:+ basename rc_path +:+ "/" +:+ f) /\
  (basename rc_path = "" ->
   (forall f, f ∈ svg_listing -> count "/" f = O) ->
   forall f, f ∈ produced -> rc_name rc_path f = "/" +:+ f).
Proof.
  intros Hscss Hok links produced. split; [exact discard_absent |].
  assert (Hplain : (forall f, f ∈ svg_listing -> count "/" f = O) ->
                   forall f, f ∈ produced -> count "/" f = O).
  { intros Hl f Hf.
    apply (pass_fnames_plain ".png" f (List.filter (endswith ".svg") svg_listing));
      [left | | exact Hf].
    intros g Hg. apply elem_of_filter_list in Hg as [Hg _]. now apply Hl. }
  split; [| split].
  - destruct (create_images_run scss_path base_svg_path rc_path temp_dir palette
                svg_listing scss w Hscss Hok)
      as (st & w' & Hrun & _ & _ & _ & _ & Hl & Hu).
    exists st, w'. split; [exact Hrun |]. split; [exact Hl |].
    split; [exact Hu |]. intros x. rewrite Hu.
    apply discard_all_NoDup, list_of_set_NoDup.
  - intros Hb Hl f Hf. apply rc_name_canonical; [exact Hb | now apply Hplain].
  - intros Hb Hl f Hf. apply rc_name_no_base; [exact Hb | now apply Hplain].
Qed.

Lemma C5_reconciliation_witness :
  (exists st w',
     create_images "qss/_styles.scss" ["icon.svg"; "base_palette.svg"] "tmp" "svg"
       "out/rc" scenario_palette scenario_world = (inr st, w') /\
     stat_rc_links st = 2 /\
     forall x, x ∈ stat_rc_unmatched st <->
       x ∈ list_of_set ["/rc/icon.png"; "/rc/icon_hover.png"] /\
       (x ∉ map (rc_name "out/rc")
                ["icon.png"; "icon_disabled.png"; "icon_focus.png";
                 "icon_pressed.png"])) /\
  rc_name "out/rc" "icon.png" = "/rc/icon.png".
Proof.
  assert (Hscss : files scenario_world !! "qss/_styles.scss"
                  = Some ("background: url(/rc/icon.png);" +:+ nl
                          +:+ "other: url(/rc/icon_hover.png);")) by reflexivity.
  assert (Hok : processable "svg" (files scenario_world)
                  (List.filter (endswith ".svg") ["icon.svg"; "base_palette.svg"])).
  { intros f Hf. simpl in Hf. rewrite !elem_of_cons, elem_of_nil in Hf.
    destruct Hf as [-> | [-> | []]].
    - split; [reflexivity |]. intros _. split; [reflexivity |].
      exists "<path fill=#ff0000/>". reflexivity.
    - split; [reflexivity |]. intros H. vm_compute in H. discriminate H. }
  destruct (C5_reconciliation "qss/_styles.scss" "tmp" "svg" "out/rc"
              scenario_palette ["icon.svg"; "base_palette.svg"] _ scenario_world
              Hscss Hok) as (_ & (st & w' & Hrun & Hl & _ & Hmem) & Hcanon & _).
  split.
  - exists st, w'. split; [exact Hrun |]. split; [exact Hl | exact Hmem].
  - apply Hcanon.
    + vm_compute. discriminate.
    + intros f Hf. rewrite !elem_of_cons, elem_of_nil in Hf.
      destruct Hf as [-> | [-> | []]]; reflexivity.
    + vm_compute. left.
Defined.

(** C9, as stated, fails: the templates [icon.svg] and
    [icon_disabled.svg] have distinct names with one ['.'] each, and
    the run writes [rc/icon_disabled.png] twice. *)
Lemma C9_counterexample :
  let svg_listing := ["icon.svg"; "icon_disabled.svg"] in
  NoDup svg_listing /\
  (forall f, f ∈ svg_listing -> count "." f = 1%nat) /\
  exists st w',
    create_images "qss/_styles.scss" svg_listing "tmp" "svg" "rc"
      scenario_palette scenario_world = (inr st, w') /\
    ~ NoDup (map png_path (png_writes w')).
Proof.
  split; [| split].
  - NoDup_strings ltac:(fun H => discriminate H).
  - intros f Hf. rewrite !elem_of_cons, elem_of_nil in Hf.
    destruct Hf as [-> | [-> | []]]; reflexivity.
  - eexists _, _. split; [vm_compute; reflexivity |].
    cbn [png_writes map png_path].
    intros H. apply NoDup_cons in H as [_ H].
    apply NoDup_cons in H as [H _]. apply H.
    do 2 right. left.
Qed.

(** C9, amended. When the listed names are pairwise distinct, each
    processed SVG has exactly one ['.'], and no processed template's
    base name is another's followed by [_disabled], [_focus],
    [_pressed], [@2x] or a state suffix and [@2x], the run writes
    raster files whose names are pairwise distinct over all states,
    templates and both sizes; so are their paths when the listed names
    are plain. *)
Theorem C9_output_names_distinct
  (scss_path temp_dir base_svg_path rc_path : string) (palette : Palette)
  (svg_listing : list string) (scss : string) (w : world) :
  files w !! scss_path = Some scss ->
  NoDup svg_listing ->
  processable base_svg_path (files w) (List.filter (endswith ".svg") svg_listing) ->
  clash_free (processed svg_listing) ->
  exists st w',
    create_images scss_path svg_listing temp_dir base_svg_path rc_path palette w
      = (inr st, w') /\
    map png_path (png_writes w')
    = map png_path (png_writes w)
      ++ map (path_join rc_path) (all_png_fnames svg_listing) /\
    stat_png st = Z.of_nat (length (all_png_fnames svg_listing)) /\
    NoDup (all_png_fnames svg_listing) /\
    ((forall f, f ∈ svg_listing -> count "/" f = O) ->
     NoDup (map (path_join rc_path) (all_png_fnames svg_listing))).
Proof.
  intros Hscss Hnd Hok Hcf.
  destruct (create_images_run scss_path base_svg_path rc_path temp_dir palette
              svg_listing scss w Hscss Hok)
    as (st & w' & Hrun & Hp & _ & _ & Hn & _).
  assert (Hdistinct : NoDup (all_png_fnames svg_listing))
    by now apply (all_png_fnames_NoDup base_svg_path (files w)).
  exists st, w'. repeat split; try assumption.
  intros Hplain. apply NoDup_fmap_2_strong; [| exact Hdistinct].
  intros x y Hx Hy. apply path_join_inj;
    now apply (all_png_fnames_plain svg_listing).
Qed.

Lemma C9_output_names_distinct_witness :
  let listing := ["icon.svg"; "arrow.svg"; "base_palette.svg"] in
  let w := World (<["svg/arrow.svg" := "<path fill=#ff0000/>"]> (files scenario_world)) [] in
  (exists st w',
     create_images "qss/_styles.scss" listing "tmp" "svg" "rc" scenario_palette w
       = (inr st, w') /\
     map png_path (png_writes w') = map (path_join "rc") (all_png_fnames listing) /\
     stat_png st = 16) /\
  NoDup (all_png_fnames listing) /\
  NoDup (map (path_join "rc") (all_png_fnames listing)).
Proof.
  intros listing w.
  assert (Hscss : files w !! "qss/_styles.scss"
                  = Some ("background: url(/rc/icon.png);" +:+ nl
                          +:+ "other: url(/rc/icon_hover.png);")) by reflexivity.
  assert (Hnd : NoDup listing).
  { NoDup_strings ltac:(fun H => discriminate H). }
  assert (Hok : processable "svg" (files w) (List.filter (endswith ".svg") listing)).
  { intros f Hf. simpl in Hf. rewrite !elem_of_cons, elem_of_nil in Hf.
    destruct Hf as [-> | [-> | [-> | []]]].
    - split; [reflexivity |]. intros _. split; [reflexivity |].
      exists "<path fill=#ff0000/>". reflexivity.
    - split; [reflexivity |]. intros _. split; [reflexivity |].
      exists "<path fill=#ff0000/>". reflexivity.
    - split; [reflexivity |]. intros H. vm_compute in H. discriminate H. }
  assert (Hcf : clash_free (processed listing)).
  { intros f1 f2 e Hf1 Hf2 He. vm_compute in Hf1, Hf2.
    unfold clash_extensions in He. rewrite !elem_of_cons, elem_of_nil in He.
    apply elem_of_cons in Hf1 as [-> | Hf1];
      [| apply list_elem_of_singleton in Hf1 as ->];
      (apply elem_of_cons in Hf2 as [-> | Hf2];
       [| apply list_elem_of_singleton in Hf2 as ->]);
      repeat destruct He as [He | He]; try contradiction; subst e;
      vm_compute; discriminate. }
  destruct (C9_output_names_distinct "qss/_styles.scss" "tmp" "svg" "rc"
              scenario_palette listing _ w Hscss Hnd Hok Hcf)
    as (st & w' & Hrun & Hw & Hn & H & Hpaths).
  split; [exists st, w'; split; [exact Hrun |]; split; [exact Hw | exact Hn] |].
  split; [exact H |]. apply Hpaths.
  intros f Hf. unfold listing in Hf. rewrite !elem_of_cons, elem_of_nil in Hf.
  destruct Hf as [-> | [-> | [-> | []]]]; reflexivity.
Defined.

(** * Further properties of the module *)

(** ** Errors of the building blocks *)

(** X1. [_get_file_color_map] has one way to fail: it raises
    [ValueError] exactly when the file name does not hold exactly one
    ['.'] (none, as in [icon], or several, as in [a.b.svg]); with one
    ['.'] it returns its four entries, so the loop over [files_map]
    always finds the key and the [assert] never fires. *)
Theorem get_file_color_map_errors (fname : string) (palette : Palette) :
  (count "." fname = 1%nat /\
   exists file_colors,
     _get_file_color_map fname palette = inr file_colors /\
     length file_colors = 4%nat) \/
  (count "." fname <> 1%nat /\
   _get_file_color_map fname palette = inl ValueError).
Proof.
  destruct (decide (count "." fname = 1%nat)) as [H | H].
  - left. split; [exact H |].
    destruct (file_color_map_ok palette fname H) as (name & ext & _ & _ & _ & _ & Hm).
    exists (variant_entries palette name ext). now split.
  - right. split; [exact H |]. unfold _get_file_color_map.
    pose proof (split_length "." fname) as Hl.
    destruct (split "." fname) as [|a [|b [|c l]]]; simpl in *;
      try reflexivity; lia.
Qed.

(** X2. [_create_colored_svg] either finds no template, raises
    [FileNotFoundError] and leaves every file as it was, or writes the
    colorized text to the temporary path and changes nothing else: no
    other file and no raster file. *)
Theorem create_colored_svg_frame (svg_path temp_svg_path color : string)
  (w : world) :
  match files w !! svg_path with
  | None =>
      _create_colored_svg svg_path temp_svg_path color w
      = (inl FileNotFoundError, w)
  | Some data =>
      exists w',
        _create_colored_svg svg_path temp_svg_path color w = (inr tt, w') /\
        files w' !! temp_svg_path = Some (replace base_color color data) /\
        (forall p, p <> temp_svg_path -> files w' !! p = files w !! p) /\
        png_writes w' = png_writes w
  end.
Proof.
  destruct (files w !! svg_path) as [data|] eqn:E.
  - eexists. split; [apply create_colored_svg_run; exact E |].
    cbn [files png_writes]. split; [apply lookup_insert_eq |].
    split; [| reflexivity]. intros p Hp. now apply lookup_insert_ne.
  - now apply create_colored_svg_missing.
Qed.

(** ** Whole runs *)

(** X3. Without a readable stylesheet [create_images] raises
    [FileNotFoundError] before it touches any template: no file and no
    raster file is written. *)
Theorem create_images_missing_stylesheet
  (scss_path temp_dir base_svg_path rc_path : string) (palette : Palette)
  (svg_listing : list string) (w : world) :
  files w !! scss_path = None ->
  create_images scss_path svg_listing temp_dir base_svg_path rc_path palette w
  = (inl FileNotFoundError, w).
Proof.
  intros H. unfold create_images, bind, get_rc_links_from_scss, bind, read_file.
  now rewrite H.
Qed.

Lemma create_images_missing_stylesheet_witness :
  files scenario_world !! "qss/missing.scss" = None /\
  create_images "qss/missing.scss" ["icon.svg"] "tmp" "svg" "rc"
    scenario_palette scenario_world = (inl FileNotFoundError, scenario_world).
Proof.
  split; [reflexivity |].
  apply (create_images_missing_stylesheet "qss/missing.scss" "tmp" "svg" "rc"
           scenario_palette ["icon.svg"] scenario_world).
  reflexivity.
Defined.

Lemma pass_fnames_length (ext : string) (xs : list string) :
  length (pass_fnames ext xs)
  = (4 * length (List.filter (fun f => negb (blacklisted f)) xs))%nat.
Proof.
  unfold pass_fnames. induction xs as [|x xs IH]; csimpl; [reflexivity |].
  rewrite length_app, IH. unfold png_fnames.
  destruct (blacklisted x); simpl; lia.
Qed.

Lemma filter_split_length (p : string -> bool) (xs : list string) :
  length xs
  = (length (List.filter (fun f => negb (p f)) xs) + length (List.filter p xs))%nat.
Proof.
  induction xs as [|x xs IH]; simpl; [reflexivity |].
  destruct (p x); simpl; lia.
Qed.

(** X4. The counters of a run that processes its whole listing: eight
    raster files per processed template (four states at two sizes),
    every listed SVG either processed or blacklisted, and each
    blacklisted one counted twice in the skipped counter. *)
Theorem create_images_statistics
  (scss_path temp_dir base_svg_path rc_path : string) (palette : Palette)
  (svg_listing : list string) (scss : string) (w : world) :
  files w !! scss_path = Some scss ->
  processable base_svg_path (files w) (List.filter (endswith ".svg") svg_listing) ->
  exists st w',
    create_images scss_path svg_listing temp_dir base_svg_path rc_path palette w
      = (inr st, w') /\
    stat_png st = 8 * Z.of_nat (length (processed svg_listing)) /\
    stat_ignored st = 2 * (stat_svg st - Z.of_nat (length (processed svg_listing))) /\
    length (png_writes w')
    = (length (png_writes w) + 8 * length (processed svg_listing))%nat.
Proof.
  intros Hscss Hok.
  destruct (create_images_run scss_path base_svg_path rc_path temp_dir palette
              svg_listing scss w Hscss Hok)
    as (st & w' & Hrun & Hp & Hs & Hi & Hn & _).
  exists st, w'. split; [exact Hrun |].
  assert (Hlen : length (all_png_fnames svg_listing)
                 = (8 * length (processed svg_listing))%nat).
  { rewrite all_png_fnames_passes, length_app, !pass_fnames_length.
    unfold processed. lia. }
  split; [rewrite Hn, Hlen; lia |]. split.
  - rewrite Hi, Hs.
    rewrite (filter_split_length blacklisted
               (List.filter (endswith ".svg") svg_listing)).
    unfold processed. lia.
  - apply (f_equal (@length string)) in Hp.
    rewrite length_app, !length_map, Hlen in Hp. exact Hp.
Qed.

Lemma create_images_statistics_witness :
  exists st w',
    create_images "qss/_styles.scss" ["icon.svg"; "readme.txt"; "base_palette.svg"]
      "tmp" "svg" "rc" scenario_palette scenario_world = (inr st, w') /\
    stat_png st = 8 /\ stat_ignored st = 2 * (stat_svg st - 1) /\
    length (png_writes w') = 8%nat.
Proof.
  assert (Hscss : files scenario_world !! "qss/_styles.scss"
                  = Some ("background: url(/rc/icon.png);" +:+ nl
                          +:+ "other: url(/rc/icon_hover.png);")) by reflexivity.
  assert (Hok : processable "svg" (files scenario_world)
                  (List.filter (endswith ".svg")
                     ["icon.svg"; "readme.txt"; "base_palette.svg"])).
  { intros f Hf. simpl in Hf. rewrite !elem_of_cons, elem_of_nil in Hf.
    destruct Hf as [-> | [-> | []]].
    - split; [reflexivity |]. intros _. split; [reflexivity |].
      exists "<path fill=#ff0000/>". reflexivity.
    - split; [reflexivity |]. intros H. vm_compute in H. discriminate H. }
  exact (create_images_statistics "qss/_styles.scss" "tmp" "svg" "rc"
           scenario_palette ["icon.svg"; "readme.txt"; "base_palette.svg"] _
           scenario_world Hscss Hok).
Defined.

(** ** The manifest *)

(** X5. The manifest depends on which files the output directory
    holds, not on the order in which the directory lists them. *)
Theorem manifest_ignores_listing_order (QRC_FILEPATH : string)
  (listing1 listing2 : list string) (resource_prefix style_prefix : string)
  (w : world) :
  listing1 ≡ₚ listing2 ->
  generate_qrc_file QRC_FILEPATH listing1 resource_prefix style_prefix w
  = generate_qrc_file QRC_FILEPATH listing2 resource_prefix style_prefix w.
Proof.
  intros H. unfold generate_qrc_file.
  assert (Hs : sorted listing1 = sorted listing2).
  { apply (StronglySorted_unique String.le); try apply sorted_StronglySorted.
    now rewrite !sorted_Permutation. }
  now rewrite Hs.
Qed.

Lemma manifest_ignores_listing_order_witness :
  ["b.png"; "a.png"; "a@2x.png"] ≡ₚ ["a.png"; "a@2x.png"; "b.png"] /\
  generate_qrc_file "style.qrc" ["b.png"; "a.png"; "a@2x.png"] "qss_icons"
    "qdarkstyle" scenario_world
  = generate_qrc_file "style.qrc" ["a.png"; "a@2x.png"; "b.png"] "qss_icons"
      "qdarkstyle" scenario_world.
Proof.
  assert (H : ["b.png"; "a.png"; "a@2x.png"] ≡ₚ ["a.png"; "a@2x.png"; "b.png"]).
  { change ["b.png"; "a.png"; "a@2x.png"] with (["b.png"] ++ ["a.png"; "a@2x.png"]).
    change ["a.png"; "a@2x.png"; "b.png"] with (["a.png"; "a@2x.png"] ++ ["b.png"]).
    apply Permutation_app_comm. }
  split; [exact H |].
  exact (manifest_ignores_listing_order "style.qrc" _ _ "qss_icons" "qdarkstyle"
           scenario_world H).
Defined.

(** ** The default pattern *)

Section DefaultPattern.

Lemma star_dot_suffixes (n : nat) (s : string) :
  count "010" s = O -> (String.length s <= n)%nat ->
  star_iter (ends Dot) n s = suffixes_rev s.
Proof.
  revert s. induction n as [|n IH]; intros s Hc Hn.
  - destruct s; [reflexivity | simpl in Hn; lia].
  - destruct s as [|c s]; [reflexivity |].
    cbn [count] in Hc. destruct (Ascii.eqb c "010") eqn:E; [discriminate |].
    cbn [star_iter ends]. rewrite E. csimpl.
    destruct (decide _) as [_ | Hlt]; [| simpl in Hlt; lia].
    rewrite app_nil_r, IH; [reflexivity | exact Hc | simpl in Hn; lia].
Qed.

Lemma ends_cat_chr (c : ascii) (r : regex) (s : string) :
  ends (Cat (Chr c) r) s
  = match s with
    | String c' s' => if Ascii.eqb c c' then ends r s' else []
    | EmptyString => []
    end.
Proof.
  destruct s as [|c' s]; [reflexivity |]. cbn [ends].
  destruct (Ascii.eqb c c'); csimpl; [apply app_nil_r | reflexivity].
Qed.

Lemma ends_png_cases (u : string) :
  (exists r, u = ".png" +:+ r /\ ends png_literal u = [r]) \/
  (String.prefix ".png" u = false /\ ends png_literal u = []).
Proof.
  unfold png_literal.
  destruct u as [|c1 u]; [now right |].
  rewrite ends_cat_chr, prefix_cons.
  destruct (Ascii.eqb_spec "." c1) as [<- | _]; [| now right].
  destruct u as [|c2 u]; [now right |].
  rewrite ends_cat_chr, prefix_cons.
  destruct (Ascii.eqb_spec "p" c2) as [<- | _]; [| now right].
  destruct u as [|c3 u]; [now right |].
  rewrite ends_cat_chr, prefix_cons.
  destruct (Ascii.eqb_spec "n" c3) as [<- | _]; [| now right].
  destruct u as [|c4 u]; [now right |].
  cbn [ends]. rewrite prefix_cons.
  destruct (Ascii.eqb_spec "g" c4) as [<- | _]; [| now right].
  left. now exists u.
Qed.

Lemma ends_default_slash (s : string) :
  count "010" s = O ->
  ends default_pattern (String "/" s) = suffixes_rev s ≫= ends png_literal.
Proof.
  intros H. unfold default_pattern. fold png_literal.
  rewrite ends_cat_chr, Ascii.eqb_refl. cbn [ends].
  now rewrite star_dot_suffixes.
Qed.

Lemma ends_default_other (c : ascii) (s : string) :
  c <> "/"%char -> ends default_pattern (String c s) = [].
Proof.
  intros H. unfold default_pattern. rewrite ends_cat_chr.
  destruct (Ascii.eqb_spec "/" c) as [<- | _]; [contradiction | reflexivity].
Qed.

Lemma contains_suffix (old a b : string) :
  contains old b = true -> contains old (a +:+ b) = true.
Proof.
  intros H. induction a as [|c a IH]; [exact H |].
  change (String c a +:+ b) with (String c (a +:+ b)).
  rewrite contains_cons, IH. apply orb_true_r.
Qed.

Lemma contains_here (old y : string) : contains old (old +:+ y) = true.
Proof.
  destruct (old +:+ y) eqn:E; cbn [contains]; rewrite <- E, prefix_app_self;
    reflexivity.
Qed.

Lemma bind_one {A B} (f : A -> list B) (x : A) : [x] ≫= f = f x.
Proof. csimpl. apply app_nil_r. Qed.

(** The tail matches after some suffix exactly when [.png] occurs. *)
Lemma png_tail_none (u : string) :
  suffixes_rev u ≫= ends png_literal = [] <-> contains ".png" u = false.
Proof.
  induction u as [|c u IH]; [now split |].
  cbn [suffixes_rev]. rewrite bind_app, bind_one, contains_cons. split.
  - intros H. apply app_eq_nil in H as [H1 H2]. apply IH in H1. rewrite H1.
    destruct (ends_png_cases (String c u)) as [(r & _ & Hr) | [Hp _]];
      [congruence | now rewrite Hp].
  - intros H. apply orb_false_elim in H as [Hp Hc].
    rewrite (proj2 IH Hc).
    destruct (ends_png_cases (String c u)) as [(r & Hu & _) | [_ He]];
      [| exact He].
    rewrite Hu, prefix_app_self in Hp. discriminate Hp.
Qed.

(** The first match of the tail is at the last [.png]. *)
Lemma png_tail_first (u post : string) :
  head (suffixes_rev u ≫= ends png_literal) = Some post ->
  exists m, u = m +:+ ".png" +:+ post /\ contains ".png" post = false.
Proof.
  revert post. induction u as [|c u IH]; intros post H; [discriminate H |].
  cbn [suffixes_rev] in H. rewrite bind_app, bind_one in H.
  destruct (suffixes_rev u ≫= ends png_literal) as [|y l] eqn:E.
  - apply png_tail_none in E.
    destruct (ends_png_cases (String c u)) as [(r & Hu & Hr) | [_ He]];
      [| rewrite He in H; discriminate H].
    rewrite Hr in H. injection H as <-. exists "". split; [exact Hu |].
    destruct (contains ".png" r) eqn:Er; [| reflexivity].
    simpl in Hu. injection Hu as _ Hu. subst u.
    apply (contains_suffix ".png" "png") in Er.
    exfalso. apply (eq_true_false_abs _ Er). exact E.
  - destruct (IH post) as (m & -> & Hpost); [exact H |].
    now exists (String c m).
Qed.

Lemma sapp_inv_tail (a b y : string) : a +:+ y = b +:+ y -> a = b.
Proof.
  intros H. apply tail_compare in H. apply String.app_inj in H.
  now apply srev_inj.
Qed.

Lemma count_zero_suffixes (c : ascii) (s : string) :
  (forall p1 p2, s = p1 +:+ p2 -> p2 <> "" ->
                 String.prefix (String c "") p2 = false) ->
  count c s = O.
Proof.
  induction s as [|a s IH]; intros H; [reflexivity |].
  cbn [count]. rewrite IH.
  - specialize (H "" (String a s) eq_refl ltac:(discriminate)).
    rewrite prefix_cons, Ascii.eqb_sym in H.
    destruct (Ascii.eqb a c); [| reflexivity].
    destruct s; discriminate H.
  - intros p1 p2 Hs Hp. now apply (H (String a p1) p2); [rewrite Hs |].
Qed.

(** A match at some position makes [search] succeed. *)
Lemma search_finds (r : regex) (pre s : string) :
  ends r s <> [] -> exists x, search r (pre +:+ s) = Some x.
Proof.
  intros H. induction pre as [|c pre IH].
  - destruct s as [|c s]; cbn [String.append search];
      destruct (ends r _); [contradiction | eauto | contradiction | eauto].
  - change (String c pre +:+ s) with (String c (pre +:+ s)). cbn [search].
    destruct (ends r (String c (pre +:+ s))); [exact IH | eauto].
Qed.

(** On a line, the default pattern takes the text from the first
    ['/'] to the last [.png]. *)
Lemma search_default_spec (line x : string) :
  count "010" line = O ->
  search default_pattern line = Some x ->
  exists pre mid post,
    line = pre +:+ x +:+ post /\ x = "/" +:+ mid +:+ ".png" /\
    count "/" pre = O /\ contains ".png" post = false.
Proof.
  intros Hnl H.
  destruct (search_leftmost _ _ _ H) as (pre & post & Hline & Hhd & Hearly).
  assert (Hnl' : count "010" (x +:+ post) = O).
  { rewrite Hline, count_app in Hnl. lia. }
  remember (x +:+ post) as xp eqn:Exp in Hhd, Hnl'. symmetry in Exp.
  destruct xp as [|c s]; [discriminate Hhd |].
  destruct (ascii_dec c "/") as [-> | Hc];
    [| rewrite ends_default_other in Hhd by exact Hc; discriminate Hhd].
  cbn [count] in Hnl'. rewrite ends_default_slash in Hhd by (simpl in Hnl'; lia).
  destruct (png_tail_first _ _ Hhd) as (mid & Hs & Hpost).
  assert (Hx : x = "/" +:+ mid +:+ ".png").
  { apply (sapp_inv_tail _ _ post). rewrite Exp, Hs, !sapp_assoc. reflexivity. }
  exists pre, mid, post. repeat split; try assumption.
  apply count_zero_suffixes. intros p1 p2 Hp Hne.
  destruct p2 as [|a p2]; [contradiction |].
  rewrite prefix_cons. destruct (Ascii.eqb_spec "/" a) as [<- | _]; [| reflexivity].
  exfalso. specialize (Hearly p1 (String "/" p2) Hp Hne).
  change (String "/" p2 +:+ x +:+ post) with (String "/" (p2 +:+ x +:+ post)) in Hearly.
  rewrite ends_default_slash in Hearly.
  - apply png_tail_none in Hearly.
    replace (p2 +:+ x +:+ post)
      with ((p2 +:+ "/" +:+ mid) +:+ ".png" +:+ post) in Hearly
      by (rewrite Hx, !sapp_assoc; reflexivity).
    rewrite contains_suffix in Hearly; [discriminate Hearly |].
    apply (contains_here ".png").
  - rewrite Hline, Hp, !count_app in Hnl. cbn [count] in Hnl.
    rewrite !count_app. lia.
Qed.

End DefaultPattern.

(** C4, as stated, fails: with the default pattern a line that holds
    two references does not contribute the first of them; it contributes
    one token that runs from the first reference into the second. *)
Lemma C4_counterexample :
  let w := World {[ "qss/_styles.scss" := "a: url(/rc/a.png) url(/rc/b.png);" ]} [] in
  exists result,
    get_rc_links_from_scss "qss/_styles.scss" default_pattern w = (inr result, w) /\
    result = ["/rc/a.png) url(/rc/b.png"] /\
    ("/rc/a.png" ∉ result).
Proof.
  eexists. split; [vm_compute; reflexivity |]. split; [reflexivity |].
  rewrite list_elem_of_singleton. discriminate.
Qed.

(** C4, amended. [get_rc_links_from_scss] splits the stylesheet into
    lines and searches each line once: a line contributes the text of
    its first match (nothing is found at an earlier position and it is
    the matcher's first choice where it starts) or nothing, so there
    are no more tokens than lines; the result holds each token once.
    With the default pattern, which is greedy, a token runs from its
    line's first ['/'] to its last [.png], so a line with several
    references contributes one token that spans them.  On the two-line
    scenario stylesheet with the default pattern the result is exactly
    [/rc/foo.png] and [/rc/bar.png]. *)
Theorem C4_reference_extraction (scss_path : string) (pattern : regex)
  (data : string) (w : world) :
  files w !! scss_path = Some data ->
  exists tokens result,
    get_rc_links_from_scss scss_path pattern w = (inr result, w) /\
    tokens = omap (search pattern) (split "010" data) /\
    (length tokens <= length (split "010" data))%nat /\
    NoDup result /\
    (forall x, x ∈ result <-> x ∈ tokens) /\
    (forall line x, search pattern line = Some x ->
       exists pre post,
         line = pre +:+ x +:+ post /\
         head (ends pattern (x +:+ post)) = Some post /\
         forall p1 p2, pre = p1 +:+ p2 -> p2 <> "" ->
                       ends pattern (p2 +:+ x +:+ post) = []) /\
    (pattern = default_pattern ->
     forall x, x ∈ result ->
       exists line pre mid post,
         line ∈ split "010" data /\ line = pre +:+ x +:+ post /\
         x = "/" +:+ mid +:+ ".png" /\
         count "/" pre = O /\ contains ".png" post = false) /\
    (data = scenario_scss -> pattern = default_pattern ->
     NoDup result /\
     forall x, x ∈ result <-> x = "/rc/foo.png" \/ x = "/rc/bar.png").
Proof.
  intros H. eexists _, _. split; [apply get_rc_links_run; exact H |].
  split; [reflexivity |]. split; [apply omap_length_le |].
  split; [apply list_of_set_NoDup |].
  split; [intros x; apply elem_of_list_of_set |].
  split; [apply search_leftmost |]. split.
  - intros -> x Hx.
    apply elem_of_list_of_set, list_elem_of_omap in Hx as (line & Hline & Hs).
    destruct (search_default_spec line x (split_no_sep _ _ _ Hline) Hs)
      as (pre & mid & post & H1 & H2 & H3 & H4).
    now exists line, pre, mid, post.
  - intros -> ->. split; [apply list_of_set_NoDup |].
    intros x. rewrite elem_of_list_of_set.
    change (omap (search default_pattern) (split "010" scenario_scss))
      with ["/rc/foo.png"; "/rc/bar.png"].
    rewrite !elem_of_cons, elem_of_nil. tauto.
Qed.

Lemma C4_reference_extraction_witness :
  let w := World {[ "qss/_styles.scss" := scenario_scss ]} [] in
  files w !! "qss/_styles.scss" = Some scenario_scss /\
  exists result,
    get_rc_links_from_scss "qss/_styles.scss" default_pattern w = (inr result, w) /\
    NoDup result /\
    (forall x, x ∈ result <-> x = "/rc/foo.png" \/ x = "/rc/bar.png") /\
    (forall x, x ∈ result ->
       exists line pre mid post,
         line ∈ split "010" scenario_scss /\ line = pre +:+ x +:+ post /\
         x = "/" +:+ mid +:+ ".png" /\
         count "/" pre = O /\ contains ".png" post = false).
Proof.
  assert (Hf : files (World {[ "qss/_styles.scss" := scenario_scss ]} [])
                 !! "qss/_styles.scss" = Some scenario_scss) by reflexivity.
  split; [exact Hf |].
  destruct (C4_reference_extraction "qss/_styles.scss" default_pattern scenario_scss
              (World {[ "qss/_styles.scss" := scenario_scss ]} []) Hf)
    as (tokens & result & Hrun & _ & _ & _ & _ & _ & Hspan & Hex).
  exists result. split; [exact Hrun |].
  destruct (Hex eq_refl eq_refl) as [Hnd Hmem].
  split; [exact Hnd |]. split; [exact Hmem |]. now apply Hspan.
Defined.

(** X6. With the default pattern, every link that
    [get_rc_links_from_scss] returns comes from a line of the
    stylesheet and runs from that line's first ['/'] to its last
    [.png]; and every line that has a [.png] after a ['/'] contributes
    a link. *)
Theorem default_links_span (scss_path : string) (data : string) (w : world) :
  files w !! scss_path = Some data ->
  exists result,
    get_rc_links_from_scss scss_path default_pattern w = (inr result, w) /\
    (forall x, x ∈ result ->
       exists line pre mid post,
         line ∈ split "010" data /\ line = pre +:+ x +:+ post /\
         x = "/" +:+ mid +:+ ".png" /\
         count "/" pre = O /\ contains ".png" post = false) /\
    (forall line pre rest,
       line ∈ split "010" data -> line = pre +:+ "/" +:+ rest ->
       contains ".png" rest = true ->
       exists x pre' post', x ∈ result /\ line = pre' +:+ x +:+ post').
Proof.
  intros H. eexists. split; [apply get_rc_links_run; exact H |]. split.
  - intros x Hx. apply elem_of_list_of_set, list_elem_of_omap in Hx
      as (line & Hline & Hs).
    destruct (search_default_spec line x (split_no_sep _ _ _ Hline) Hs)
      as (pre & mid & post & H1 & H2 & H3 & H4).
    now exists line, pre, mid, post.
  - intros line pre rest Hline Hl Hc.
    assert (Hnl : count "010" line = O) by exact (split_no_sep _ _ _ Hline).
    destruct (search_finds default_pattern pre ("/" +:+ rest)) as [x Hx].
    + change ("/" +:+ rest) with (String "/" rest).
      rewrite ends_default_slash.
      * intros E. apply png_tail_none in E. congruence.
      * rewrite Hl, count_app in Hnl. simpl in Hnl. lia.
    + rewrite <- Hl in Hx.
      destruct (search_leftmost _ _ _ Hx) as (pre' & post' & Hsplit & _).
      exists x, pre', post'. split; [| exact Hsplit].
      apply elem_of_list_of_set, list_elem_of_omap. now exists line.
Qed.

Lemma default_links_span_witness :
  let data := "a: url(/rc/a.png) url(/rc/b.png);" +:+ nl +:+ "b: none;" in
  let w := World {[ "qss/_styles.scss" := data ]} [] in
  files w !! "qss/_styles.scss" = Some data /\
  exists result,
    get_rc_links_from_scss "qss/_styles.scss" default_pattern w = (inr result, w) /\
    forall x, x ∈ result ->
      exists line pre mid post,
        line ∈ split "010" data /\ line = pre +:+ x +:+ post /\
        x = "/" +:+ mid +:+ ".png" /\
        count "/" pre = O /\ contains ".png" post = false.
Proof.
  intros data w.
  assert (Hf : files w !! "qss/_styles.scss" = Some data) by reflexivity.
  split; [exact Hf |].
  destruct (default_links_span "qss/_styles.scss" data w Hf)
    as (result & Hrun & Hall & _).
  exists result. split; [exact Hrun | exact Hall].
Defined.

(** ** What the raster files are rendered from *)

Section Rendering.

Variables (base_svg_path rc_path temp_dir : string) (palette : Palette).

Lemma for_each_writes {X} (Inv : run -> Prop) (body : X -> M run unit)
  (P : X -> list png_file) (xs : list X) :
  (forall x r, x ∈ xs -> Inv r ->
     exists r', body x r = (inr tt, r') /\
                png_writes (run_world r') = png_writes (run_world r) ++ P x /\
                Inv r') ->
  forall r, Inv r ->
    exists r', for_each xs body r = (inr tt, r') /\
               png_writes (run_world r') = png_writes (run_world r) ++ (xs ≫= P) /\
               Inv r'.
Proof.
  induction xs as [|x xs IH]; intros Hbody r Hr.
  - exists r. csimpl. rewrite app_nil_r. now repeat split.
  - destruct (Hbody x r) as (r1 & Hx & Hw1 & Hr1); [left | exact Hr |].
    destruct (IH (fun y s Hy => Hbody y s (list_elem_of_further _ _ _ Hy)) r1 Hr1)
      as (r2 & Hxs & Hw2 & Hr2).
    exists r2. split; [simpl; unfold bind; now rewrite Hx |].
    split; [| exact Hr2]. csimpl. now rewrite Hw2, Hw1, <- app_assoc.
Qed.

Lemma variant_body_writes (height : Z) (ext svg_path k color data : string)
  (r : run) :
  files (run_world r) !! svg_path = Some data ->
  exists r',
    variant_body rc_path temp_dir height ext svg_path (k, color) r = (inr tt, r') /\
    png_writes (run_world r')
    = png_writes (run_world r)
      ++ [PngFile (path_join rc_path (replace ".svg" ext k))
                  (replace base_color color data) height height] /\
    files (run_world r')
    = <[path_join temp_dir k := replace base_color color data]>
        (files (run_world r)).
Proof.
  intros Hdata. unfold variant_body, bind, in_world.
  rewrite (create_colored_svg_run _ _ _ _ _ Hdata).
  unfold convert_svg_to_png, modify. cbn [files png_writes run_world].
  rewrite lookup_insert_eq. cbn [files png_writes run_world num_png num_ignored rc_list].
  destruct (Z.eqb height 32); [| eexists; now repeat split].
  unfold gets. cbn [rc_list].
  destruct (list_remove _ (rc_list r)) as [e | l'] eqn:E.
  - rewrite (list_remove_exn _ _ _ E). eexists. now repeat split.
  - eexists. now repeat split.
Qed.

Lemma template_body_writes (files0 : gmap string string) (paths : list string)
  (size : Z * string) (f : string) (r : run) :
  blacklisted f = true \/
  (endswith ".svg" f = true /\ count "." f = 1%nat /\
   is_Some (files0 !! path_join base_svg_path f) /\
   path_join base_svg_path f ∈ paths /\
   forall tail, tail ∈ variant_tails ->
     (path_join temp_dir (stem f +:+ tail +:+ ".svg") ∉ paths)) ->
  kept files0 paths r ->
  exists r',
    template_body base_svg_path rc_path temp_dir palette (fst size) (snd size) f r
      = (inr tt, r') /\
    png_writes (run_world r')
    = png_writes (run_world r) ++ rendered files0 base_svg_path rc_path palette size f /\
    kept files0 paths r'.
Proof.
  destruct size as [height ext]. cbn [fst snd]. unfold rendered.
  destruct (blacklisted f) eqn:Hb.
  - intros _ Hk. eexists. split; [now apply template_body_blacklisted |].
    cbn [run_world]. rewrite app_nil_r. now split.
  - intros [H | (He & Hc & [data Hdata] & Hin & Hout)] Hk; [discriminate |].
    destruct (svg_fname_shape f He Hc) as (name & Hf & Hn & Hs & Hst).
    unfold template_body. fold (stem f). fold (blacklisted f). rewrite Hb.
    cbn [negb]. unfold bind at 1.
    rewrite (file_color_map_split palette f name "svg" Hs)
      by (rewrite Hf; reflexivity).
    cbn [lift_exn ret]. rewrite Hdata, Hst in *. cbn [fst snd].
    destruct (for_each_writes (kept files0 paths)
                (variant_body rc_path temp_dir height ext (path_join base_svg_path f))
                (fun kv =>
                   [PngFile (path_join rc_path (replace ".svg" ext (fst kv)))
                            (replace base_color (snd kv) data) height height])
                (variant_entries palette name "svg")) with (r := r)
      as (r' & Hrun & Hw & Hk'); [| exact Hk |].
    + intros [k color] s Hx Hs'.
      destruct (variant_body_writes height ext (path_join base_svg_path f)
                  k color data s) as (s' & Hrun & Hw & Hfiles).
      { rewrite (Hs' _ Hin). exact Hdata. }
      exists s'. split; [exact Hrun |]. split; [exact Hw |].
      intros p Hp. rewrite Hfiles, lookup_insert_ne; [now apply Hs' |].
      intros <-. revert Hp. unfold variant_entries in Hx.
      rewrite !elem_of_cons, elem_of_nil in Hx.
      destruct Hx as [Hx | [Hx | [Hx | [Hx | []]]]]; injection Hx as -> _.
      * apply (Hout ""). unfold variant_tails. rewrite !elem_of_cons. tauto.
      * apply (Hout "_disabled"). unfold variant_tails. rewrite !elem_of_cons. tauto.
      * apply (Hout "_focus"). unfold variant_tails. rewrite !elem_of_cons. tauto.
      * apply (Hout "_pressed"). unfold variant_tails. rewrite !elem_of_cons. tauto.
    + exists r'. split; [exact Hrun |]. split; [| exact Hk'].
      rewrite Hw. f_equal.
      assert (R : forall tail, count "." tail = O ->
                replace ".svg" ext (name +:+ tail +:+ ".svg") = name +:+ tail +:+ ext).
      { intros tail Ht. rewrite <- !sapp_assoc. apply replace_svg.
        rewrite count_app. lia. }
      unfold variant_entries, variant_colors. csimpl. cbn [fst snd].
      change (replace_go ".svg" ext 0 (name +:+ ".svg"))
        with (replace ".svg" ext (name +:+ "" +:+ ".svg")).
      change (replace_go ".svg" ext 0 (name +:+ "_disabled.svg"))
        with (replace ".svg" ext (name +:+ "_disabled" +:+ ".svg")).
      change (replace_go ".svg" ext 0 (name +:+ "_focus.svg"))
        with (replace ".svg" ext (name +:+ "_focus" +:+ ".svg")).
      change (replace_go ".svg" ext 0 (name +:+ "_pressed.svg"))
        with (replace ".svg" ext (name +:+ "_pressed" +:+ ".svg")).
      rewrite !R by reflexivity. reflexivity.
Qed.

Lemma sizes_loop_writes (files0 : gmap string string) (svg_fnames : list string)
  (r : run) :
  processable base_svg_path files0 svg_fnames ->
  temp_apart temp_dir base_svg_path
    (List.filter (fun f => negb (blacklisted f)) svg_fnames) ->
  kept files0
    (map (path_join base_svg_path)
         (List.filter (fun f => negb (blacklisted f)) svg_fnames)) r ->
  exists r',
    for_each heights (fun '(height, ext) =>
      for_each svg_fnames
        (template_body base_svg_path rc_path temp_dir palette height ext)) r
      = (inr tt, r') /\
    png_writes (run_world r')
    = png_writes (run_world r)
      ++ (heights ≫= fun size =>
            svg_fnames ≫= rendered files0 base_svg_path rc_path palette size) /\
    kept files0
      (map (path_join base_svg_path)
           (List.filter (fun f => negb (blacklisted f)) svg_fnames)) r'.
Proof.
  intros Hok Hapart.
  set (paths := map (path_join base_svg_path)
                    (List.filter (fun f => negb (blacklisted f)) svg_fnames)).
  apply (for_each_writes (kept files0 paths)
           (fun '(height, ext) =>
              for_each svg_fnames
                (template_body base_svg_path rc_path temp_dir palette height ext))
           (fun size =>
              svg_fnames ≫= rendered files0 base_svg_path rc_path palette size)).
  intros [height ext] s _ Hs.
  apply (for_each_writes (kept files0 paths)
           (template_body base_svg_path rc_path temp_dir palette height ext)
           (rendered files0 base_svg_path rc_path palette (height, ext)));
    [| exact Hs].
  intros f s' Hf Hs'.
  apply (template_body_writes files0 paths (height, ext) f s'); [| exact Hs'].
  destruct (blacklisted f) eqn:Hb; [now left | right].
  destruct (Hok f Hf) as [He Hrest]. destruct (Hrest Hb) as [Hc Hsome].
  assert (Hproc : f ∈ List.filter (fun f => negb (blacklisted f)) svg_fnames).
  { apply elem_of_filter_list. split; [exact Hf | now rewrite Hb]. }
  repeat split; try assumption.
  - apply list_elem_of_fmap. now exists f.
  - intros tail Ht Hin. apply list_elem_of_fmap in Hin as (g & Heq & Hg).
    exact (Hapart f g tail Hproc Hg Ht Heq).
Qed.

End Rendering.

(** X7. When no temporary SVG lands on a template, a run that
    processes its whole listing writes, for the base size and then for
    the double size, for each processed template in listing order, the
    four rasters of its states: each is rendered at [height] by
    [height] from the template's text with every [#ff0000] replaced by
    the state's palette color, and is saved under the base name, the
    state suffix and the size suffix.  The templates themselves are
    left as they were. *)
Theorem create_images_renders
  (scss_path temp_dir base_svg_path rc_path : string) (palette : Palette)
  (svg_listing : list string) (scss : string) (w : world) :
  files w !! scss_path = Some scss ->
  processable base_svg_path (files w) (List.filter (endswith ".svg") svg_listing) ->
  temp_apart temp_dir base_svg_path (processed svg_listing) ->
  exists st w',
    create_images scss_path svg_listing temp_dir base_svg_path rc_path palette w
      = (inr st, w') /\
    png_writes w'
    = png_writes w
      ++ (heights ≫= fun size =>
            List.filter (endswith ".svg") svg_listing
              ≫= rendered (files w) base_svg_path rc_path palette size) /\
    forall g, g ∈ processed svg_listing ->
      files w' !! path_join base_svg_path g = files w !! path_join base_svg_path g.
Proof.
  intros Hscss Hok Hapart.
  set (links := list_of_set (omap (search default_pattern) (split "010" scss))).
  destruct (sizes_loop_writes base_svg_path rc_path temp_dir palette (files w)
              (List.filter (endswith ".svg") svg_listing) (Run w 0 0 links)
              Hok Hapart) as (r' & Hrun & Hw & Hk); [intros p _; reflexivity |].
  unfold create_images. unfold bind at 1.
  rewrite (get_rc_links_run _ _ _ _ Hscss). fold links. rewrite Hrun.
  eexists _, _. split; [reflexivity |]. split; [exact Hw |].
  intros g Hg. apply Hk. apply list_elem_of_fmap. now exists g.
Qed.

Lemma create_images_renders_witness :
  exists st w',
    create_images "qss/_styles.scss" ["icon.svg"; "base_palette.svg"] "tmp" "svg"
      "rc" scenario_palette scenario_world = (inr st, w') /\
    png_writes w'
    = [PngFile "rc/icon.png" "<path fill=#111111/>" 32 32;
       PngFile "rc/icon_disabled.png" "<path fill=#222222/>" 32 32;
       PngFile "rc/icon_focus.png" "<path fill=#333333/>" 32 32;
       PngFile "rc/icon_pressed.png" "<path fill=#444444/>" 32 32;
       PngFile "rc/icon@2x.png" "<path fill=#111111/>" 64 64;
       PngFile "rc/icon_disabled@2x.png" "<path fill=#222222/>" 64 64;
       PngFile "rc/icon_focus@2x.png" "<path fill=#333333/>" 64 64;
       PngFile "rc/icon_pressed@2x.png" "<path fill=#444444/>" 64 64].
Proof.
  assert (Hscss : files scenario_world !! "qss/_styles.scss"
                  = Some ("background: url(/rc/icon.png);" +:+ nl
                          +:+ "other: url(/rc/icon_hover.png);")) by reflexivity.
  assert (Hok : processable "svg" (files scenario_world)
                  (List.filter (endswith ".svg") ["icon.svg"; "base_palette.svg"])).
  { intros f Hf. simpl in Hf. rewrite !elem_of_cons, elem_of_nil in Hf.
    destruct Hf as [-> | [-> | []]].
    - split; [reflexivity |]. intros _. split; [reflexivity |].
      exists "<path fill=#ff0000/>". reflexivity.
    - split; [reflexivity |]. intros H. vm_compute in H. discriminate H. }
  assert (Hapart : temp_apart "tmp" "svg" (processed ["icon.svg"; "base_palette.svg"])).
  { intros f g tail Hf Hg Ht. vm_compute in Hf, Hg.
    apply list_elem_of_singleton in Hf as ->.
    apply list_elem_of_singleton in Hg as ->.
    unfold variant_tails in Ht. rewrite !elem_of_cons, elem_of_nil in Ht.
    repeat destruct Ht as [Ht | Ht]; try contradiction; subst tail;
      vm_compute; discriminate. }
  destruct (create_images_renders "qss/_styles.scss" "tmp" "svg" "rc"
              scenario_palette ["icon.svg"; "base_palette.svg"] _ scenario_world
              Hscss Hok Hapart) as (st & w' & Hrun & Hw & _).
  exists st, w'. split; [exact Hrun | exact Hw].
Defined.

(** ** The palette image *)

Section PaletteImageFacts.

Variable lower : string -> string.

Lemma prefix_app_l (a b s : string) :
  String.prefix (a +:+ b) s = true -> String.prefix a s = true.
Proof.
  revert s. induction a as [|c a IH]; intros s H; [now destruct s |].
  destruct s as [|d s]; [discriminate H |].
  simpl String.append in H. rewrite prefix_cons in *.
  apply andb_prop in H as [-> H]. simpl. now apply IH.
Qed.

Lemma contains_app_l (a b s : string) :
  contains a s = false -> contains (a +:+ b) s = false.
Proof.
  induction s as [|c s IH]; cbn [contains]; intros H.
  - rewrite orb_false_r in *.
    destruct (String.prefix (a +:+ b) "") eqn:E; [| reflexivity].
    apply prefix_app_l in E. congruence.
  - apply orb_false_elim in H as [Hp Hc]. rewrite (IH Hc), orb_false_r.
    destruct (String.prefix (a +:+ b) (String c s)) eqn:E; [| reflexivity].
    apply prefix_app_l in E. congruence.
Qed.

(** A text that opens no placeholder is left as it is. *)
Lemma fill_palette_plain (color_palette : dict string) (data : string) :
  contains "{{ " data = false -> fill_palette lower color_palette data = data.
Proof.
  intros H. unfold fill_palette.
  induction color_palette as [|[name value] rest IH]; [reflexivity |].
  cbn [fold_left].
  assert (Hr : replace ("{{ " +:+ name +:+ " }}") (lower value) data = data).
  { apply (replace_go_absent "{" ("{ " +:+ name +:+ " }}")).
    now apply (contains_app_l "{{ " (name +:+ " }}")). }
  rewrite Hr. exact IH.
Qed.

Lemma create_palette_image_run (color_palette : dict string)
  (base_svg_path path data : string) (w : world) :
  files w !! path_join base_svg_path "base_palette.svg" = Some data ->
  create_palette_image lower color_palette base_svg_path path w
  = (inr (path_join path "palette.svg", path_join path "palette.png"),
     World (<[path_join path "palette.svg" := fill_palette lower color_palette data]>
              (files w))
           (png_writes w
            ++ [PngFile (path_join path "palette.png")
                        (fill_palette lower color_palette data) 4000 4000])).
Proof.
  intros H. unfold create_palette_image, bind, read_file. rewrite H.
  unfold write_file, convert_svg_to_png, modify. cbn [files png_writes].
  now rewrite lookup_insert_eq.
Qed.

End PaletteImageFacts.

(** X8. Without [base_palette.svg] in the template directory,
    [create_palette_image] raises [FileNotFoundError] and writes
    neither [palette.svg] nor [palette.png]. *)
Theorem create_palette_image_missing (lower : string -> string)
  (color_palette : dict string) (base_svg_path path : string) (w : world) :
  files w !! path_join base_svg_path "base_palette.svg" = None ->
  create_palette_image lower color_palette base_svg_path path w
  = (inl FileNotFoundError, w).
Proof.
  intros H. unfold create_palette_image, bind, read_file. now rewrite H.
Qed.

Lemma create_palette_image_missing_witness :
  files scenario_world !! path_join "icons" "base_palette.svg" = None /\
  create_palette_image ascii_lower [("COLOR_BACKGROUND_1", "#19232D")] "icons"
    "images" scenario_world = (inl FileNotFoundError, scenario_world).
Proof.
  split; [reflexivity |].
  apply (create_palette_image_missing ascii_lower
           [("COLOR_BACKGROUND_1", "#19232D")] "icons" "images" scenario_world).
  reflexivity.
Defined.

Section PaletteHoles.

Variable lower : string -> string.

Lemma name_compare (n m rest : string) :
  count " " n = O -> count " " m = O -> n <> m ->
  String.prefix (n +:+ " }}") (m +:+ " }}" +:+ rest) = false.
Proof.
  revert m. induction n as [|a n IH]; intros m Hn Hm Hne.
  - destruct m as [|b m]; [contradiction |].
    cbn [count] in Hm. destruct (Ascii.eqb b " ") eqn:E; [discriminate |].
    simpl String.append. now rewrite prefix_cons, Ascii.eqb_sym, E.
  - cbn [count] in Hn. destruct (Ascii.eqb a " ") eqn:E; [discriminate |].
    destruct m as [|b m]; simpl String.append; rewrite prefix_cons.
    + now rewrite E.
    + destruct (Ascii.eqb_spec a b) as [<- | _]; [| reflexivity].
      cbn [count] in Hm. rewrite E in Hm. simpl. apply IH; try assumption.
      congruence.
Qed.

Lemma hole_no_start (n m new rest : string) :
  count " " n = O -> count " " m = O -> count "{" m = O -> n <> m ->
  no_start ("{{ " +:+ n +:+ " }}") (render_piece (Hole m)) rest = true.
Proof.
  intros Hn Hm Hb Hne. cbn [render_piece].
  change ("{{ " +:+ m +:+ " }}") with (String "{" (String "{" (String " " (m +:+ " }}")))).
  change ("{{ " +:+ n +:+ " }}") with (String "{" (String "{" (String " " (n +:+ " }}")))).
  rewrite !no_start_cons, !prefix_cons. simpl Ascii.eqb. simpl andb.
  rewrite sapp_assoc, name_compare by assumption.
  rewrite no_marker_no_start; [reflexivity |].
  rewrite count_app, Hb. reflexivity.
Qed.

(** One pass of the loop fills the placeholders of one name. *)
Lemma replace_pass (n v : string) (pieces : list piece) :
  count " " n = O -> Forall plain_piece pieces ->
  replace ("{{ " +:+ n +:+ " }}") (lower v) (render pieces)
  = render (map (fill_piece lower [(n, v)]) pieces).
Proof.
  intros Hn Hall.
  change (replace ("{{ " +:+ n +:+ " }}") (lower v) (render pieces))
    with (replace_go ("{{ " +:+ n +:+ " }}") (lower v) 0 (render pieces)).
  induction Hall as [|p pieces Hp Hall IH]; [reflexivity |].
  change (render (p :: pieces)) with (render_piece p +:+ render pieces).
  change (render (map (fill_piece lower [(n, v)]) (p :: pieces)))
    with (render_piece (fill_piece lower [(n, v)] p)
          +:+ render (map (fill_piece lower [(n, v)]) pieces)).
  rewrite <- IH. destruct p as [s | m]; cbn [fill_piece dict_get].
  - apply replace_go_clean.
    now apply (no_marker_no_start "{" ("{ " +:+ n +:+ " }}")).
  - destruct Hp as [Hm Hb]. destruct (String.eqb_spec n m) as [<- | Hne].
    + apply (replace_go_occurrence "{" ("{ " +:+ n +:+ " }}")).
    + apply replace_go_clean. now apply hole_no_start.
Qed.

Lemma fill_piece_nil (pieces : list piece) :
  map (fill_piece lower []) pieces = pieces.
Proof.
  induction pieces as [|[s | m] pieces IH]; simpl; now rewrite ?IH.
Qed.

Lemma fill_piece_cons (n v : string) (color_palette : dict string)
  (pieces : list piece) :
  map (fill_piece lower color_palette) (map (fill_piece lower [(n, v)]) pieces)
  = map (fill_piece lower ((n, v) :: color_palette)) pieces.
Proof.
  induction pieces as [|[s | m] pieces IH]; cbn [map]; [reflexivity | |];
    rewrite IH; f_equal.
  cbn [fill_piece dict_get]. now destruct (String.eqb n m).
Qed.

Lemma fill_piece_plain (n v : string) (pieces : list piece) :
  count "{" (lower v) = O -> Forall plain_piece pieces ->
  Forall plain_piece (map (fill_piece lower [(n, v)]) pieces).
Proof.
  intros Hv Hall. induction Hall as [|p pieces Hp Hall IH]; [constructor |].
  cbn [map]. constructor; [| exact IH].
  destruct p as [s | m]; cbn [fill_piece dict_get]; [exact Hp |].
  now destruct (String.eqb n m).
Qed.

Lemma fill_palette_cons (n v : string) (rest : dict string) (data : string) :
  fill_palette lower ((n, v) :: rest) data
  = fill_palette lower rest (replace ("{{ " +:+ n +:+ " }}") (lower v) data).
Proof. reflexivity. Qed.

(** The whole loop fills every placeholder the palette names. *)
Lemma fill_palette_render (color_palette : dict string) (pieces : list piece) :
  (forall n v, (n, v) ∈ color_palette ->
               count " " n = O /\ count "{" (lower v) = O) ->
  Forall plain_piece pieces ->
  fill_palette lower color_palette (render pieces)
  = render (map (fill_piece lower color_palette) pieces).
Proof.
  revert pieces. induction color_palette as [|[n v] rest IH]; intros pieces Hpal Hall.
  - rewrite fill_piece_nil. reflexivity.
  - destruct (Hpal n v) as [Hn Hv]; [left |].
    rewrite fill_palette_cons, (replace_pass n v pieces Hn Hall).
    rewrite IH; [now rewrite fill_piece_cons | |].
    + intros n' v' Hin. apply Hpal. now right.
    + now apply fill_piece_plain.
Qed.

End PaletteHoles.

(** X10. [create_palette_image] fills the template: when the
    template is text without ['{'] around placeholders [{{ NAME }}],
    the palette's names hold no blank and its colors no ['{'], the
    text written to [palette.svg] has each placeholder whose name is in
    the palette replaced by that color in lower case, and every other
    placeholder and all the text around kept. *)
Theorem create_palette_image_fills (lower : string -> string)
  (color_palette : dict string) (base_svg_path path : string)
  (pieces : list piece) (w : world) :
  files w !! path_join base_svg_path "base_palette.svg" = Some (render pieces) ->
  Forall plain_piece pieces ->
  (forall n v, (n, v) ∈ color_palette ->
               count " " n = O /\ count "{" (lower v) = O) ->
  exists w',
    create_palette_image lower color_palette base_svg_path path w
    = (inr (path_join path "palette.svg", path_join path "palette.png"), w') /\
    files w' !! path_join path "palette.svg"
    = Some (render (map (fill_piece lower color_palette) pieces)).
Proof.
  intros Hf Hall Hpal. eexists.
  split; [apply create_palette_image_run; exact Hf |].
  cbn [files]. rewrite lookup_insert_eq. f_equal.
  now apply fill_palette_render.
Qed.

Lemma create_palette_image_fills_witness :
  let template :=
    [Text "<rect fill="; Hole "COLOR_BACKGROUND_1"; Text " stroke=";
     Hole "COLOR_UNKNOWN"; Text "/>"] in
  let w := World {[ "svg/base_palette.svg" := render template ]} [] in
  exists w',
    create_palette_image ascii_lower [("COLOR_BACKGROUND_1", "#19232D")] "svg"
      "images" w
    = (inr ("images/palette.svg", "images/palette.png"), w') /\
    files w' !! "images/palette.svg"
    = Some "<rect fill=#19232d stroke={{ COLOR_UNKNOWN }}/>".
Proof.
  intros template w.
  apply (create_palette_image_fills ascii_lower [("COLOR_BACKGROUND_1", "#19232D")]
           "svg" "images" template w).
  - reflexivity.
  - repeat (apply Forall_cons; split; [now repeat split |]).
    apply Forall_nil. exact I.
  - intros n v Hin. apply list_elem_of_singleton in Hin.
    injection Hin as -> ->. split; reflexivity.
Defined.

(** X9. With [base_palette.svg] in place, a template of text and
    placeholders as in X10 and such a palette, [create_palette_image]
    returns the paths of [palette.svg] and [palette.png] under the
    target directory, writes the filled text to the first, renders the
    second from that same filled text at 4000 by 4000, and changes no
    other file. *)
Theorem create_palette_image_result (lower : string -> string)
  (color_palette : dict string) (base_svg_path path : string)
  (pieces : list piece) (w : world) :
  files w !! path_join base_svg_path "base_palette.svg" = Some (render pieces) ->
  Forall plain_piece pieces ->
  (forall n v, (n, v) ∈ color_palette ->
               count " " n = O /\ count "{" (lower v) = O) ->
  let filled := render (map (fill_piece lower color_palette) pieces) in
  exists w',
    create_palette_image lower color_palette base_svg_path path w
    = (inr (path_join path "palette.svg", path_join path "palette.png"), w') /\
    files w' !! path_join path "palette.svg" = Some filled /\
    (forall p, p <> path_join path "palette.svg" -> files w' !! p = files w !! p) /\
    png_writes w'
    = png_writes w ++ [PngFile (path_join path "palette.png") filled 4000 4000].
Proof.
  intros Hf Hall Hpal filled. eexists.
  split; [apply create_palette_image_run; exact Hf |].
  cbn [files png_writes].
  rewrite (fill_palette_render lower color_palette pieces Hpal Hall).
  split; [apply lookup_insert_eq |].
  split; [intros p Hp; now apply lookup_insert_ne | reflexivity].
Qed.

Lemma create_palette_image_result_witness :
  let template :=
    [Text "<rect fill="; Hole "COLOR_BACKGROUND_1"; Text " stroke=";
     Hole "COLOR_UNKNOWN"; Text "/>"] in
  let w := World {[ "svg/base_palette.svg" := render template ]} [] in
  exists w',
    create_palette_image ascii_lower [("COLOR_BACKGROUND_1", "#19232D")] "svg"
      "images" w
    = (inr ("images/palette.svg", "images/palette.png"), w') /\
    files w' !! "images/palette.svg"
    = Some "<rect fill=#19232d stroke={{ COLOR_UNKNOWN }}/>" /\
    png_writes w'
    = [PngFile "images/palette.png"
         "<rect fill=#19232d stroke={{ COLOR_UNKNOWN }}/>" 4000 4000].
Proof.
  intros template w.
  destruct (create_palette_image_result ascii_lower
              [("COLOR_BACKGROUND_1", "#19232D")] "svg" "images" template w)
    as (w' & Hrun & Hsvg & _ & Hpng).
  - reflexivity.
  - repeat (apply Forall_cons; split; [now repeat split |]).
    apply Forall_nil. exact I.
  - intros n v Hin. apply list_elem_of_singleton in Hin.
    injection Hin as -> ->. split; reflexivity.
  - exists w'. split; [exact Hrun |]. split; [exact Hsvg | exact Hpng].
Defined.

(** ** Reconciliation against the produced files *)

(** X11. When the template directory lists no [.svg] name, the run
    ends normally, writes nothing, counts nothing, and reports every
    link of the stylesheet as unmatched. *)
Theorem create_images_no_templates
  (scss_path temp_dir base_svg_path rc_path : string) (palette : Palette)
  (svg_listing : list string) (scss : string) (w : world) :
  files w !! scss_path = Some scss ->
  List.filter (endswith ".svg") svg_listing = [] ->
  exists links,
    get_rc_links_from_scss scss_path default_pattern w = (inr links, w) /\
    create_images scss_path svg_listing temp_dir base_svg_path rc_path palette w
    = (inr (Stats 0 0 0 (Z.of_nat (length links)) links), w).
Proof.
  intros Hscss Hnone. eexists. split; [apply get_rc_links_run; exact Hscss |].
  unfold create_images. unfold bind at 1.
  rewrite (get_rc_links_run _ _ _ _ Hscss), Hnone. reflexivity.
Qed.

Lemma create_images_no_templates_witness :
  exists links,
    get_rc_links_from_scss "qss/_styles.scss" default_pattern scenario_world
    = (inr links, scenario_world) /\
    create_images "qss/_styles.scss" ["readme.txt"; "icon.png"] "tmp" "svg" "rc"
      scenario_palette scenario_world
    = (inr (Stats 0 0 0 (Z.of_nat (length links)) links), scenario_world).
Proof.
  apply (create_images_no_templates "qss/_styles.scss" "tmp" "svg" "rc"
           scenario_palette ["readme.txt"; "icon.png"]
           ("background: url(/rc/icon.png);" +:+ nl
            +:+ "other: url(/rc/icon_hover.png);") scenario_world);
    reflexivity.
Defined.

(** X12. A run never reports a reference to a file it produced at
    the base size: for an output directory with a base name and plain
    listed names, the paths [/BASENAME/NAME.png],
    [/BASENAME/NAME_disabled.png], [/BASENAME/NAME_focus.png] and
    [/BASENAME/NAME_pressed.png] of every processed template are absent
    from the unmatched list, whatever the stylesheet holds. *)
Theorem produced_references_matched
  (scss_path temp_dir base_svg_path rc_path : string) (palette : Palette)
  (svg_listing : list string) (scss : string) (w : world) :
  files w !! scss_path = Some scss ->
  processable base_svg_path (files w) (List.filter (endswith ".svg") svg_listing) ->
  basename rc_path <> "" ->
  (forall f, f ∈ svg_listing -> count "/" f = O) ->
  exists st w',
    create_images scss_path svg_listing temp_dir base_svg_path rc_path palette w
      = (inr st, w') /\
    forall f tail,
      f ∈ processed svg_listing -> tail ∈ variant_tails ->
      ("/" +:+ basename rc_path +:+ "/" +:+ stem f +:+ tail +:+ ".png")
        ∉ stat_rc_unmatched st.
Proof.
  intros Hscss Hok Hb Hplain.
  destruct (create_images_run scss_path base_svg_path rc_path temp_dir palette
              svg_listing scss w Hscss Hok)
    as (st & w' & Hrun & _ & _ & _ & _ & _ & Hu).
  exists st, w'. split; [exact Hrun |].
  intros f tail Hf Ht Hin. rewrite Hu in Hin.
  apply (discard_all_NoDup _ _ (list_of_set_NoDup _)) in Hin as [_ Hout].
  apply Hout. apply elem_of_processed in Hf as (Hl & Hs & Hbl).
  assert (Hprod : stem f +:+ tail +:+ ".png"
                  ∈ pass_fnames ".png" (List.filter (endswith ".svg") svg_listing)).
  { apply elem_of_pass_fnames. exists f, tail.
    repeat split; try assumption. now apply elem_of_filter_list. }
  apply list_elem_of_fmap. exists (stem f +:+ tail +:+ ".png").
  split; [| exact Hprod].
  symmetry. apply rc_name_canonical; [exact Hb |].
  apply (pass_fnames_plain ".png" _ (List.filter (endswith ".svg") svg_listing));
    [left | | exact Hprod].
  intros g Hg. apply elem_of_filter_list in Hg as [Hg _]. now apply Hplain.
Qed.

Lemma produced_references_matched_witness :
  exists st w',
    create_images "qss/_styles.scss" ["icon.svg"; "base_palette.svg"] "tmp" "svg"
      "out/rc" scenario_palette scenario_world = (inr st, w') /\
    ("/rc/icon.png" ∉ stat_rc_unmatched st).
Proof.
  assert (Hscss : files scenario_world !! "qss/_styles.scss"
                  = Some ("background: url(/rc/icon.png);" +:+ nl
                          +:+ "other: url(/rc/icon_hover.png);")) by reflexivity.
  assert (Hok : processable "svg" (files scenario_world)
                  (List.filter (endswith ".svg") ["icon.svg"; "base_palette.svg"])).
  { intros f Hf. simpl in Hf. rewrite !elem_of_cons, elem_of_nil in Hf.
    destruct Hf as [-> | [-> | []]].
    - split; [reflexivity |]. intros _. split; [reflexivity |].
      exists "<path fill=#ff0000/>". reflexivity.
    - split; [reflexivity |]. intros H. vm_compute in H. discriminate H. }
  assert (Hb : basename "out/rc" <> "") by (vm_compute; discriminate).
  assert (Hplain : forall f, f ∈ ["icon.svg"; "base_palette.svg"] -> count "/" f = O).
  { intros f Hf. rewrite !elem_of_cons, elem_of_nil in Hf.
    destruct Hf as [-> | [-> | []]]; reflexivity. }
  destruct (produced_references_matched "qss/_styles.scss" "tmp" "svg" "out/rc"
              scenario_palette ["icon.svg"; "base_palette.svg"] _ scenario_world
              Hscss Hok Hb Hplain) as (st & w' & Hrun & Hnone).
  exists st, w'. split; [exact Hrun |].
  apply (Hnone "icon.svg" "").
  - vm_compute. left.
  - unfold variant_tails. left.
Defined.

(** X13. Reconciliation looks at the base size only: under the
    conditions that keep output names distinct, a stylesheet link to
    the double-size file of a processed template,
    [/BASENAME/NAME@2x.png] or one of its state variants, is always
    reported as unmatched although the run produces that file. *)
Theorem double_size_references_unmatched
  (scss_path temp_dir base_svg_path rc_path : string) (palette : Palette)
  (svg_listing : list string) (scss : string) (w : world) :
  files w !! scss_path = Some scss ->
  NoDup svg_listing ->
  processable base_svg_path (files w) (List.filter (endswith ".svg") svg_listing) ->
  clash_free (processed svg_listing) ->
  basename rc_path <> "" ->
  (forall f, f ∈ svg_listing -> count "/" f = O) ->
  exists links st w',
    get_rc_links_from_scss scss_path default_pattern w = (inr links, w) /\
    create_images scss_path svg_listing temp_dir base_svg_path rc_path palette w
      = (inr st, w') /\
    forall f tail,
      f ∈ processed svg_listing -> tail ∈ variant_tails ->
      ("/" +:+ basename rc_path +:+ "/" +:+ stem f +:+ tail +:+ "@2x.png") ∈ links ->
      ("/" +:+ basename rc_path +:+ "/" +:+ stem f +:+ tail +:+ "@2x.png")
        ∈ stat_rc_unmatched st.
Proof.
  intros Hscss Hnd Hok Hcf Hb Hplain.
  destruct (create_images_run scss_path base_svg_path rc_path temp_dir palette
              svg_listing scss w Hscss Hok)
    as (st & w' & Hrun & _ & _ & _ & _ & _ & Hu).
  eexists _, st, w'. split; [apply get_rc_links_run; exact Hscss |].
  split; [exact Hrun |].
  intros f tail Hf Ht Hin. rewrite Hu.
  apply (discard_all_NoDup _ _ (list_of_set_NoDup _)). split; [exact Hin |].
  intros Hmap. apply list_elem_of_fmap in Hmap as (y & Hy & Hprod).
  assert (Hyplain : count "/" y = O).
  { apply (pass_fnames_plain ".png" _ (List.filter (endswith ".svg") svg_listing));
      [left | | exact Hprod].
    intros g Hg. apply elem_of_filter_list in Hg as [Hg _]. now apply Hplain. }
  rewrite (rc_name_canonical rc_path y Hb Hyplain) in Hy.
  do 3 apply String.app_inj in Hy. subst y.
  pose proof (all_png_fnames_NoDup base_svg_path (files w) svg_listing Hnd Hok Hcf)
    as Hdistinct.
  rewrite all_png_fnames_passes in Hdistinct.
  apply NoDup_app in Hdistinct as (_ & Hdisjoint & _).
  apply (Hdisjoint _ Hprod). apply elem_of_pass_fnames.
  apply elem_of_processed in Hf as (Hl & Hs & Hbl).
  exists f, tail. repeat split; try assumption. now apply elem_of_filter_list.
Qed.

Lemma double_size_references_unmatched_witness :
  let w := World (<["qss/_styles.scss" := "image: url(/rc/icon@2x.png);"]>
                    (files scenario_world)) [] in
  exists st w',
    create_images "qss/_styles.scss" ["icon.svg"; "base_palette.svg"] "tmp" "svg"
      "out/rc" scenario_palette w = (inr st, w') /\
    "/rc/icon@2x.png" ∈ stat_rc_unmatched st.
Proof.
  intros w.
  assert (Hscss : files w !! "qss/_styles.scss"
                  = Some "image: url(/rc/icon@2x.png);") by reflexivity.
  assert (Hnd : NoDup ["icon.svg"; "base_palette.svg"]).
  { NoDup_strings ltac:(fun H => discriminate H). }
  assert (Hok : processable "svg" (files w)
                  (List.filter (endswith ".svg") ["icon.svg"; "base_palette.svg"])).
  { intros f Hf. simpl in Hf. rewrite !elem_of_cons, elem_of_nil in Hf.
    destruct Hf as [-> | [-> | []]].
    - split; [reflexivity |]. intros _. split; [reflexivity |].
      exists "<path fill=#ff0000/>". reflexivity.
    - split; [reflexivity |]. intros H. vm_compute in H. discriminate H. }
  assert (Hcf : clash_free (processed ["icon.svg"; "base_palette.svg"])).
  { intros f1 f2 e Hf1 Hf2 He. vm_compute in Hf1, Hf2.
    apply list_elem_of_singleton in Hf1 as ->.
    apply list_elem_of_singleton in Hf2 as ->.
    unfold clash_extensions in He. rewrite !elem_of_cons, elem_of_nil in He.
    repeat destruct He as [He | He]; try contradiction; subst e;
      vm_compute; discriminate. }
  assert (Hb : basename "out/rc" <> "") by (vm_compute; discriminate).
  assert (Hplain : forall f, f ∈ ["icon.svg"; "base_palette.svg"] -> count "/" f = O).
  { intros f Hf. rewrite !elem_of_cons, elem_of_nil in Hf.
    destruct Hf as [-> | [-> | []]]; reflexivity. }
  destruct (double_size_references_unmatched "qss/_styles.scss" "tmp" "svg" "out/rc"
              scenario_palette ["icon.svg"; "base_palette.svg"] _ w
              Hscss Hnd Hok Hcf Hb Hplain)
    as (links & st & w' & Hlinks & Hrun & Hall).
  exists st, w'. split; [exact Hrun |].
  apply (Hall "icon.svg" "").
  - vm_compute. left.
  - unfold variant_tails. left.
  - assert (Hl : links = ["/rc/icon@2x.png"]).
    { assert (Hc : get_rc_links_from_scss "qss/_styles.scss" default_pattern w
                   = (inr ["/rc/icon@2x.png"], w)) by (vm_compute; reflexivity).
      rewrite Hc in Hlinks. now injection Hlinks as <-. }
    rewrite Hl. left.
Defined.
